(** * pyuvm TLM interfaces: ports, the binding protocol and the FIFO exports

    A shallow embedding of [src/pyuvm/uvm_tlm_interfaces.py].

    The module is Python: objects carry a dictionary of attributes, classes
    are looked up by name, private names ([__x]) are rewritten per class, and
    an exception leaves behind every store made before it was raised.  The
    embedding keeps exactly that: a heap of objects, a state-and-exception
    monad over it, the class table of the module, and one Rocq function per
    Python method, written statement by statement. *)

From Stdlib Require Import ZArith String List Ascii.
From stdpp Require Import base option list gmap strings fin_maps.

Open Scope string_scope.
Open Scope Z_scope.

(** ** Values and the object store *)

Definition loc := positive.

Inductive value : Type :=
  | VNone
  | VBool (b : bool)
  | VInt (n : Z)
  | VStr (s : string)
  | VNames (names : list string)          (* a list of str, as [uvm_methods] *)
  | VClass (c : string)                   (* a class object, by name *)
  | VFunc (c : string) (f : string)       (* the function [f] defined in class [c] *)
  | VMethod (self : loc) (c : string) (f : string)  (* [f] of class [c] bound to [self] *)
  | VRef (l : loc).                       (* an instance, a dict or a Queue *)

(** What a dict files a value under: equal hashable values are one key.
    Strings and numbers compare by content ([True] is [1], [False] is
    [0]); classes, functions and objects compare by identity, bound methods
    by receiver and function. *)
Inductive key : Type :=
  | KNone
  | KInt (n : Z)
  | KStr (s : string)
  | KClass (c : string)
  | KFunc (c : string) (f : string)
  | KMethod (self : loc) (c : string) (f : string)
  | KObj (l : loc).

Definition key_code (k : key)
    : Z + string + string + (string * string)
      + (positive * (string * string)) + positive + unit :=
  match k with
  | KInt n => inl (inl (inl (inl (inl (inl n)))))
  | KStr s => inl (inl (inl (inl (inl (inr s)))))
  | KClass c => inl (inl (inl (inl (inr c))))
  | KFunc c f => inl (inl (inl (inr (c, f))))
  | KMethod l c f => inl (inl (inr (l, (c, f))))
  | KObj l => inl (inr l)
  | KNone => inr tt
  end.

Definition key_of_code
    (x : Z + string + string + (string * string)
         + (positive * (string * string)) + positive + unit) : key :=
  match x with
  | inl (inl (inl (inl (inl (inl n))))) => KInt n
  | inl (inl (inl (inl (inl (inr s))))) => KStr s
  | inl (inl (inl (inl (inr c)))) => KClass c
  | inl (inl (inl (inr (c, f)))) => KFunc c f
  | inl (inl (inr (l, (c, f)))) => KMethod l c f
  | inl (inr l) => KObj l
  | inr tt => KNone
  end.

Global Instance key_eq_dec : EqDecision key.
Proof. solve_decision. Defined.

Global Instance key_countable : Countable key.
Proof. refine (inj_countable' key_code key_of_code _). by intros []. Defined.

Inductive object : Type :=
  | Instance (cls : string) (attrs : gmap string value)
  | Dict (items : gmap key value)
  | QueueObj (maxsize : Z) (queue : list value).

Abbreviation heap := (gmap loc object).

(** [hash(v)] succeeds on everything but lists and dicts. *)
Definition key_of (h : heap) (v : value) : option key :=
  match v with
  | VNone => Some KNone
  | VBool b => Some (KInt (if b then 1 else 0))
  | VInt n => Some (KInt n)
  | VStr s => Some (KStr s)
  | VNames _ => None
  | VClass c => Some (KClass c)
  | VFunc c f => Some (KFunc c f)
  | VMethod self c f => Some (KMethod self c f)
  | VRef l =>
      match h !! l with
      | Some (Dict _) => None
      | _ => Some (KObj l)
      end
  end.

(** The exceptions the module can meet.  [QueueFull] and [QueueEmpty] are
    the aliases under which the module imports [queue.Full] and
    [queue.Empty]. *)
Inductive exn : Type :=
  | AttributeError
  | NameError
  | TypeError
  | RuntimeError
  | IndexError
  | QueueFull
  | QueueEmpty.

Definition exn_name (e : exn) : string :=
  match e with
  | AttributeError => "AttributeError"
  | NameError => "NameError"
  | TypeError => "TypeError"
  | RuntimeError => "RuntimeError"
  | IndexError => "IndexError"
  | QueueFull => "Full"
  | QueueEmpty => "Empty"
  end.

Definition exn_eqb (a b : exn) : bool :=
  match a, b with
  | AttributeError, AttributeError | NameError, NameError
  | TypeError, TypeError | RuntimeError, RuntimeError
  | IndexError, IndexError
  | QueueFull, QueueFull | QueueEmpty, QueueEmpty => true
  | _, _ => false
  end.

(** ** The monad: state, exceptions, and a caller that stays suspended

    [Block] is the outcome of a call that waits for another thread (a
    blocking [Queue.put] on a full queue, a blocking [Queue.get] on an empty
    one): in a run of one thread nothing wakes it up. *)

Inductive outcome (A : Type) : Type :=
  | Ret (a : A)
  | Raise (e : exn)
  | Block.
Arguments Ret {A} a.
Arguments Raise {A} e.
Arguments Block {A}.

Definition M (A : Type) : Type := heap → heap * outcome A.

Definition ret {A} (a : A) : M A := λ h, (h, Ret a).
Definition raise {A} (e : exn) : M A := λ h, (h, Raise e).
Definition block {A} : M A := λ h, (h, Block).

Definition bind {A B} (c : M A) (k : A → M B) : M B := λ h,
  match c h with
  | (h', Ret a) => k a h'
  | (h', Raise e) => (h', Raise e)
  | (h', Block) => (h', Block)
  end.

Declare Scope py_scope.
Delimit Scope py_scope with py.
Notation "x <- c ;; k" := (bind c (λ x, k))
  (at level 100, c at next level, right associativity) : py_scope.
Notation "c ;;; k" := (bind c (λ _, k))
  (at level 100, right associativity) : py_scope.
Open Scope py_scope.

(** [try: c except E: handler] *)
Definition try_except {A} (c : M A) (E : exn) (handler : M A) : M A := λ h,
  match c h with
  | (h', Raise e) => if exn_eqb e E then handler h' else (h', Raise e)
  | r => r
  end.

(** [for x in xs: body x] *)
Fixpoint for_each {A} (xs : list A) (body : A → M unit) : M unit :=
  match xs with
  | [] => ret tt
  | x :: xs' => body x ;;; for_each xs' body
  end.

(** Object creation: a location not yet in the store. *)
Definition alloc (o : object) : M loc := λ h,
  let l := fresh (dom h) in (<[l := o]> h, Ret l).

(** ** Private names

    Inside a class body an identifier with two leading underscores and
    without two trailing ones is rewritten to [_Class__name], the class name
    losing its own leading underscores.  Text compiled on its own (the
    argument of [exec]) has no enclosing class and is not rewritten. *)

Fixpoint lstrip_underscores (s : string) : string :=
  match s with
  | String c s' => if Ascii.eqb c "_"%char then lstrip_underscores s' else s
  | EmptyString => EmptyString
  end.

Fixpoint ends_with_dunder (s : string) : bool :=
  match s with
  | String a (String b EmptyString) => Ascii.eqb a "_"%char && Ascii.eqb b "_"%char
  | String _ s' => ends_with_dunder s'
  | EmptyString => false
  end.

Definition is_private (name : string) : bool :=
  String.prefix "__" name && negb (ends_with_dunder name).

Definition mangle (cls name : string) : string :=
  if is_private name then
    match lstrip_underscores cls with
    | EmptyString => name
    | c => "_" +:+ c +:+ name
    end
  else name.

(** ** The class table of the module

    One entry per class statement: its bases, the functions its body
    defines, and those among them decorated [@abstractmethod].  Classes are
    named by their [__name__]; [PutExport] and [GetPeekExport] are the two
    classes nested in [uvm_tlm_fifo_base]. *)

Record class_def : Type := ClassDef {
  bases : list string;
  functions : list string;
  abstracts : list string
}.

Definition imp (bs fs : list string) : string → string * class_def :=
  λ name, (name, ClassDef bs fs fs).
Definition cls (bs fs : list string) : string → string * class_def :=
  λ name, (name, ClassDef bs fs []).

(** Modelled from the spec: [uvm_component] is imported from
    [predefined_component_classes], which is not among the sources.  The
    spec's owning-component interface gives it a name and a parent, used
    only to form the qualified name; its entry here has the constructor and
    nothing else. *)
Definition uvm_component_def : string * class_def :=
  cls ["object"] ["__init__"] "uvm_component".

(** The thirteen port classes, each with the imp class its [__init__]
    hands to [uvm_port_base.__init__]. *)
Definition port_table : list (string * string) :=
  [ ("uvm_blocking_put_port", "uvm_blocking_put_imp");
    ("uvm_nonblocking_put_port", "uvm_nonblocking_put_imp");
    ("uvm_put_port", "uvm_put_imp");
    ("uvm_blocking_get_port", "uvm_blocking_get_imp");
    ("uvm_nonblocking_get_port", "uvm_nonblocking_get_imp");
    ("uvm_get_port", "uvm_get_imp");
    ("uvm_blocking_peek_port", "uvm_blocking_peek_imp");
    ("uvm_nonblocking_peek_port", "uvm_nonblocking_peek_imp");
    ("uvm_peek_port", "uvm_peek_imp");
    ("uvm_blocking_get_peek_port", "uvm_blocking_get_peek_imp");
    ("uvm_nonblocking_get_peek_port", "uvm_nonblocking_get_peek_imp");
    ("uvm_get_peek_port", "uvm_get_peek_imp");
    ("uvm_analyis_port", "uvm_analysis_imp") ].

Definition port_class_names : list string := map fst port_table.

Definition classes : list (string * class_def) :=
  [ cls [] [] "object";
    cls ["object"] [] "ABC";
    uvm_component_def;
    imp ["ABC"] ["put"] "uvm_blocking_put_imp";
    imp ["ABC"] ["try_put"; "can_put"] "uvm_nonblocking_put_imp";
    cls ["uvm_blocking_put_imp"; "uvm_nonblocking_put_imp"] [] "uvm_put_imp";
    imp ["ABC"] ["get"] "uvm_blocking_get_imp";
    imp ["ABC"] ["try_get"; "can_get"] "uvm_nonblocking_get_imp";
    imp ["ABC"] ["write"] "uvm_analysis_imp";
    cls ["uvm_blocking_get_imp"; "uvm_nonblocking_get_imp"] [] "uvm_get_imp";
    imp ["ABC"] ["peek"] "uvm_blocking_peek_imp";
    imp ["ABC"] ["try_peek"; "can_peek"] "uvm_nonblocking_peek_imp";
    cls ["uvm_blocking_peek_imp"; "uvm_nonblocking_peek_imp"] [] "uvm_peek_imp";
    cls ["uvm_blocking_get_imp"; "uvm_blocking_peek_imp"] []
        "uvm_blocking_get_peek_imp";
    cls ["uvm_nonblocking_get_imp"; "uvm_nonblocking_peek_imp"] []
        "uvm_nonblocking_get_peek_imp";
    cls ["uvm_get_imp"; "uvm_peek_imp"] [] "uvm_get_peek_imp";
    imp ["ABC"] ["transport"] "uvm_blocking_transport_imp";
    imp ["ABC"] ["nb_transport"] "uvm_non_blocking_transport_imp";
    cls ["uvm_blocking_transport_imp"; "uvm_non_blocking_transport_imp"] []
        "uvm_transport_imp";
    cls ["uvm_blocking_put_imp"; "uvm_blocking_get_peek_imp"] []
        "uvm_blocking_master_imp";
    cls ["uvm_nonblocking_put_imp"; "uvm_nonblocking_get_peek_imp"] []
        "uvm_nonblocking_master_imp";
    cls ["uvm_nonblocking_master_imp"; "uvm_blocking_master_imp"] []
        "uvm_master_imp";
    cls ["uvm_blocking_put_imp"; "uvm_blocking_get_peek_imp"] []
        "uvm_blocking_slave_imp";
    cls ["uvm_nonblocking_put_imp"; "uvm_nonblocking_get_peek_imp"] []
        "uvm_nonblocking_slave_imp";
    cls ["uvm_nonblocking_slave_imp"; "uvm_blocking_slave_imp"] []
        "uvm_slave_imp";
    cls ["uvm_component"] ["__init__"; "connect"] "uvm_port_base" ]
  ++ map (cls ["uvm_port_base"] ["__init__"]) port_class_names
  ++ [ cls ["uvm_component"] ["__init__"] "uvm_tlm_fifo_base";
       cls ["uvm_put_imp"] ["put"; "can_put"; "try_put"] "PutExport";
       cls ["uvm_get_peek_imp"] ["get"; "can_get"; "try_get"; "peek"]
           "GetPeekExport" ].

(** The imp class of a port class. *)
Definition port_imp_type (port_cls : string) : option string :=
  snd <$> find (λ e, String.eqb (fst e) port_cls) port_table.

(** The names bound at module level: the imports and the top-level class
    statements.  The nested classes are attributes of [uvm_tlm_fifo_base],
    not names of the module. *)
Definition module_globals : list string :=
  [ "uvm_component"; "QueueFull"; "QueueEmpty"; "Queue"; "ABC";
    "abstractmethod"; "FunctionType" ]
  ++ filter (λ n, negb (String.eqb n "object" || String.eqb n "ABC"
                        || String.eqb n "uvm_component"
                        || String.eqb n "PutExport"
                        || String.eqb n "GetPeekExport"))
            (map fst classes).

Definition class_def_of (c : string) : option class_def :=
  snd <$> find (λ e, String.eqb (fst e) c) classes.

Definition inb (x : string) (l : list string) : bool :=
  existsb (String.eqb x) l.

(** The class and its ancestors, bases left to right, each followed by its
    own ancestors.  Python's linearisation differs from this order only in
    where a shared base stands; every lookup below asks which class first
    defines a name, and in this module no class overrides a function of a
    sibling's base, so both orders answer alike. *)
Fixpoint ancestors (depth : nat) (c : string) : list string :=
  match depth with
  | O => []
  | S d =>
      c :: match class_def_of c with
           | Some def => flat_map (ancestors d) (bases def)
           | None => []
           end
  end.

Definition hierarchy_depth : nat := 8.

Definition mro (c : string) : list string := ancestors hierarchy_depth c.

Definition defines (f : string) (c : string) : bool :=
  match class_def_of c with
  | Some def => inb f (functions def)
  | None => false
  end.

(** The class whose definition of [f] an instance of [c] uses. *)
Definition find_method (c f : string) : option string :=
  find (defines f) (mro c).

Definition is_abstract (c f : string) : bool :=
  match find_method c f with
  | Some k => match class_def_of k with
              | Some def => inb f (abstracts def)
              | None => false
              end
  | None => false
  end.

(** [sorted(set(...))] on names, as [dir] returns them. *)
Fixpoint insert_sorted (x : string) (l : list string) : list string :=
  match l with
  | [] => [x]
  | y :: l' =>
      if String.eqb x y then l
      else if String.ltb x y then x :: l
      else y :: insert_sorted x l'
  end.

Definition sort_names (l : list string) : list string :=
  foldr insert_sorted [] l.

(** [[m for m in dir(c) if isinstance(getattr(c, m), FunctionType)]]: of
    everything [dir] lists, the functions are the ones some class statement
    of the hierarchy defines ([object] and [ABC] contribute slot wrappers
    and data only). *)
Definition function_names (c : string) : list string :=
  sort_names (flat_map (λ k, match class_def_of k with
                             | Some def => functions def
                             | None => []
                             end) (mro c)).

(** [cls.__abstractmethods__] *)
Definition abstract_methods (c : string) : list string :=
  filter (λ f, is_abstract c f) (function_names c).

Definition issubclass (c k : string) : bool := inb k (mro c).

(** ** Attribute access, dictionaries, names *)

(** [v.a]: the instance's own attributes first, then the functions of its
    class hierarchy, found as methods bound to the instance.  A missing
    attribute is an [AttributeError]; so is any attribute of [None].  The
    scalars, dicts and queues define none of the names this module reads
    through [getattr_]. *)
Definition getattr_ (v : value) (a : string) : M value := λ h,
  match v with
  | VRef l =>
      match h !! l with
      | Some (Instance c attrs) =>
          match attrs !! a with
          | Some x => (h, Ret x)
          | None =>
              match find_method c a with
              | Some k => (h, Ret (VMethod l k a))
              | None => (h, Raise AttributeError)
              end
          end
      | _ => (h, Raise AttributeError)
      end
  | VClass c =>
      match find_method c a with
      | Some k => (h, Ret (VFunc k a))
      | None => (h, Raise AttributeError)
      end
  | _ => (h, Raise AttributeError)
  end.

(** [self.a = v] *)
Definition setattr_ (self : loc) (a : string) (v : value) : M unit := λ h,
  match h !! self with
  | Some (Instance c attrs) => (<[self := Instance c (<[a := v]> attrs)]> h, Ret tt)
  | _ => (h, Raise AttributeError)
  end.

(** [d[k] = v]: [d] has to be a dict and [k] hashable, else [TypeError]. *)
Definition setitem (d k v : value) : M unit := λ h,
  match d with
  | VRef l =>
      match h !! l, key_of h k with
      | Some (Dict items), Some key =>
          (<[l := Dict (<[key := v]> items)]> h, Ret tt)
      | _, _ => (h, Raise TypeError)
      end
  | _ => (h, Raise TypeError)
  end.

(** A name used in a function body that is not one of its locals is looked
    up in the module; the class body that encloses the function is not a
    scope for it. *)
Definition load_global (name : string) : M value :=
  if inb name module_globals then ret (VClass name) else raise NameError.

Definition class_of (h : heap) (v : value) : string :=
  match v with
  | VRef l =>
      match h !! l with
      | Some (Instance c _) => c
      | Some (Dict _) => "dict"
      | Some (QueueObj _ _) => "Queue"
      | None => "object"
      end
  | VNone => "NoneType"
  | VBool _ => "bool"
  | VInt _ => "int"
  | VStr _ => "str"
  | VNames _ => "list"
  | VClass _ => "type"
  | VFunc _ _ => "function"
  | VMethod _ _ _ => "method"
  end.

(** [isinstance(v, cls)] for the abstract base classes of the module, none
    of which registers virtual subclasses. *)
Definition isinstance_ (v cls : value) : M bool := λ h,
  match cls with
  | VClass k => (h, Ret (issubclass (class_of h v) k))
  | _ => (h, Raise TypeError)
  end.

(** ** [queue.Queue], as the standard library documents it

    [maxsize <= 0] means no bound.  The queue is shared by reference: every
    holder of its location sees every change. *)

Definition full (maxsize : Z) (queue : list value) : bool :=
  (0 <? maxsize) && (maxsize <=? Z.of_nat (length queue)).

Definition with_queue {A} (q : value) (k : loc → Z → list value → M A) : M A := λ h,
  match q with
  | VRef l =>
      match h !! l with
      | Some (QueueObj maxsize queue) => k l maxsize queue h
      | _ => (h, Raise AttributeError)
      end
  | _ => (h, Raise AttributeError)
  end.

Definition store_queue (l : loc) (maxsize : Z) (queue : list value) : M unit :=
  λ h, (<[l := QueueObj maxsize queue]> h, Ret tt).

Definition Queue_full (q : value) : M bool :=
  with_queue q (λ _ maxsize queue, ret (full maxsize queue)).

Definition Queue_empty (q : value) : M bool :=
  with_queue q (λ _ _ queue, ret (match queue with [] => true | _ => false end)).

Definition Queue_put_nowait (q item : value) : M value :=
  with_queue q (λ l maxsize queue,
    if full maxsize queue then raise QueueFull
    else store_queue l maxsize (queue ++ [item]) ;;; ret VNone).

Definition Queue_put (q item : value) : M value :=
  with_queue q (λ l maxsize queue,
    if full maxsize queue then block
    else store_queue l maxsize (queue ++ [item]) ;;; ret VNone).

Definition Queue_get_nowait (q : value) : M value :=
  with_queue q (λ l maxsize queue,
    match queue with
    | [] => raise QueueEmpty
    | x :: rest => store_queue l maxsize rest ;;; ret x
    end).

Definition Queue_get (q : value) : M value :=
  with_queue q (λ l maxsize queue,
    match queue with
    | [] => block
    | x :: rest => store_queue l maxsize rest ;;; ret x
    end).

(** [q.not_empty.wait()] by a caller that has not acquired the queue's
    lock: [Condition.wait] raises [RuntimeError].  It never returns, which
    the result type records. *)
Definition Queue_not_empty_wait (q : value) : M Empty_set :=
  with_queue q (λ _ _ _, raise RuntimeError).

(** [q.queue[0]] *)
Definition Queue_head (q : value) : M value :=
  with_queue q (λ _ _ queue,
    match queue with
    | [] => raise IndexError
    | x :: _ => ret x
    end).

(** ** The owning component

    Modelled from the spec: [uvm_component.__init__(name, parent)] is not
    among the sources.  The spec's owning-component interface says a
    component supplies a qualified name, formed from its own name and its
    parent's; here it is the parent's [full_name], a dot and the name, or
    the name alone under no parent, stored as the attribute [full_name]
    that [connect] reads. *)
Definition uvm_component_init (self : loc) (name parent : value) : M value :=
  fn <- match parent with
        | VNone => ret name
        | _ =>
            pfn <- getattr_ parent "full_name" ;;
            match pfn, name with
            | VStr p, VStr n => ret (VStr (p +:+ "." +:+ n))
            | _, _ => raise TypeError
            end
        end ;;
  setattr_ self "full_name" fn ;;;
  ret VNone.

(** ** Ports: [uvm_port_base] *)

Definition is_function (v : value) : bool :=
  match v with VFunc _ _ => true | _ => false end.

(** [[m for m in dir(imp_type) if isinstance(getattr(imp_type, m), FunctionType)]] *)
Definition uvm_methods_of (imp_type : value) : M (list string) := λ h,
  match imp_type with
  | VClass c => (h, Ret (function_names c))
  | VRef l =>
      match h !! l with
      | Some (Instance _ attrs) =>
          (h, Ret (sort_names
                     (map fst (filter (λ kv, is_function (snd kv))
                                      (map_to_list attrs)))))
      | _ => (h, Ret [])
      end
  | _ => (h, Ret [])
  end.

(** [uvm_port_base.__init__(self, name, parent, imp_type)] *)
Definition uvm_port_base_init (self : loc) (name parent imp_type : value) : M value :=
  uvm_component_init self name parent ;;;
  d <- alloc (Dict ∅) ;;
  setattr_ self "connected_to" (VRef d) ;;;
  setattr_ self "_imp_type" imp_type ;;;
  ms <- uvm_methods_of imp_type ;;
  setattr_ self "uvm_methods" (VNames ms) ;;;
  ret VNone.

(** One round of the loop in [connect]:
    [exec(f'self.{method}=self.__export.{method}')].  The text is compiled
    by [exec], outside the class body, so [__export] is read under that
    very name. *)
Definition exec_bind (self : loc) (method : string) : M unit :=
  e <- getattr_ (VRef self) "__export" ;;
  f <- getattr_ e method ;;
  setattr_ self method f.

Definition names_of (v : value) : M (list string) :=
  match v with
  | VNames l => ret l
  | _ => raise TypeError
  end.

(** [uvm_port_base.connect(self, export)], statement by statement.  The
    value of the [isinstance] expression is not used. *)
Definition connect (self : loc) (export : value) : M value :=
  imp_type <- getattr_ (VRef self) "_imp_type" ;;
  _ <- isinstance_ export imp_type ;;
  setattr_ self (mangle "uvm_port_base" "__export") export ;;;
  ct <- getattr_ (VRef self) "connected_to" ;;
  efn <- getattr_ export "full_name" ;;
  setitem ct efn export ;;;
  pt <- getattr_ export "provided_to" ;;
  sfn <- getattr_ (VRef self) "full_name" ;;
  setitem pt sfn (VRef self) ;;;
  ms <- getattr_ (VRef self) "uvm_methods" ;;
  names <- names_of ms ;;
  for_each names (exec_bind self) ;;;
  ret VNone.

(** The thirteen port classes: [super().__init__(name, parent, <imp>)]. *)
Definition port_init (port_cls : string) (self : loc) (name parent : value) : M value :=
  match port_imp_type port_cls with
  | Some imp_type => uvm_port_base_init self name parent (VClass imp_type)
  | None => raise TypeError
  end.

(** ** The FIFO exports: [uvm_tlm_fifo_base.PutExport] and [GetPeekExport]

    Every [self.__queue] below stands in the body of the nested class, so
    it reads the attribute [mangle "PutExport" "__queue"] (or the one of
    [GetPeekExport]) of the export itself. *)

Definition PutExport_put (self : loc) (item : value) : M value :=
  q <- getattr_ (VRef self) (mangle "PutExport" "__queue") ;;
  Queue_put q item ;;;
  ret VNone.

Definition PutExport_can_put (self : loc) : M value :=
  q <- getattr_ (VRef self) (mangle "PutExport" "__queue") ;;
  b <- Queue_full q ;;
  ret (VBool (negb b)).

Definition PutExport_try_put (self : loc) (item : value) : M value :=
  try_except
    (q <- getattr_ (VRef self) (mangle "PutExport" "__queue") ;;
     Queue_put_nowait q item ;;;
     ret (VBool true))
    QueueFull
    (ret (VBool false)).

Definition GetPeekExport_get (self : loc) : M value :=
  q <- getattr_ (VRef self) (mangle "GetPeekExport" "__queue") ;;
  Queue_get q.

Definition GetPeekExport_can_get (self : loc) : M value :=
  q <- getattr_ (VRef self) (mangle "GetPeekExport" "__queue") ;;
  b <- Queue_empty q ;;
  ret (VBool (negb b)).

Definition GetPeekExport_try_get (self : loc) : M value :=
  try_except
    (q <- getattr_ (VRef self) (mangle "GetPeekExport" "__queue") ;;
     Queue_get_nowait q)
    QueueEmpty
    (ret VNone).

(** [peek]: the loop body ends in [wait()], which has no normal return, so
    there is no second round to write. *)
Definition GetPeekExport_peek (self : loc) : M value :=
  q <- getattr_ (VRef self) (mangle "GetPeekExport" "__queue") ;;
  e <- Queue_empty q ;;
  (if e : bool then
     q' <- getattr_ (VRef self) (mangle "GetPeekExport" "__queue") ;;
     never <- Queue_not_empty_wait q' ;;
     match never : Empty_set with end
   else ret tt) ;;;
  q'' <- getattr_ (VRef self) (mangle "GetPeekExport" "__queue") ;;
  Queue_head q''.

(** ** Calls *)

(** [object.__new__(cls)]: a class that still has abstract methods cannot
    be instantiated. *)
Definition new_instance (c : string) : M loc :=
  match abstract_methods c with
  | [] => alloc (Instance c ∅)
  | _ => raise TypeError
  end.

(** The bodies of the abstract methods of the imp classes ([pass],
    [return None], [return False]), reachable only through a subclass that
    leaves them in place. *)
Definition abstract_default (f : string) (args : list value) : M value :=
  match f, args with
  | "put", [_] | "write", [_] | "transport", [_] | "nb_transport", [_]
  | "try_put", [_] | "try_get", [_] => ret VNone
  | "get", [] | "peek", [] | "try_peek", [] => ret VNone
  | "can_put", [] | "can_get", [] | "can_peek", [] => ret (VBool false)
  | _, _ => raise TypeError
  end.

(** [f(self, args...)] for the function [f] defined in class [c]; a wrong
    number of arguments is a [TypeError]. *)
Definition call_method (c f : string) (self : loc) (args : list value) : M value :=
  let here c' f' := String.eqb c c' && String.eqb f f' in
  if here "PutExport" "put" then
    match args with [item] => PutExport_put self item | _ => raise TypeError end
  else if here "PutExport" "can_put" then
    match args with [] => PutExport_can_put self | _ => raise TypeError end
  else if here "PutExport" "try_put" then
    match args with [item] => PutExport_try_put self item | _ => raise TypeError end
  else if here "GetPeekExport" "get" then
    match args with [] => GetPeekExport_get self | _ => raise TypeError end
  else if here "GetPeekExport" "can_get" then
    match args with [] => GetPeekExport_can_get self | _ => raise TypeError end
  else if here "GetPeekExport" "try_get" then
    match args with [] => GetPeekExport_try_get self | _ => raise TypeError end
  else if here "GetPeekExport" "peek" then
    match args with [] => GetPeekExport_peek self | _ => raise TypeError end
  else if here "uvm_port_base" "connect" then
    match args with [export] => connect self export | _ => raise TypeError end
  else if here "uvm_port_base" "__init__" then
    match args with
    | [name; parent; imp_type] => uvm_port_base_init self name parent imp_type
    | _ => raise TypeError
    end
  else if here "uvm_component" "__init__" then
    match args with
    | [name; parent] => uvm_component_init self name parent
    | _ => raise TypeError
    end
  else if String.eqb f "__init__" && inb c port_class_names then
    match args with
    | [name; parent] => port_init c self name parent
    | _ => raise TypeError
    end
  else if is_abstract c f then abstract_default f args
  else raise TypeError.

(** A call without arguments, as in [PutExport()]: a class without an
    [__init__] of its own gives a fresh instance; every [__init__] of the
    module requires a name and a parent, so the classes that have one
    refuse the call once the object exists. *)
Definition call0 (f : value) : M value :=
  match f with
  | VClass c =>
      self <- new_instance c ;;
      match find_method c "__init__" with
      | None => ret (VRef self)
      | Some _ => raise TypeError
      end
  | VMethod self c m => call_method c m self []
  | _ => raise TypeError
  end.

(** [uvm_tlm_fifo_base.__init__(self, name, parent)], over whatever
    [super().__init__] turns out to be.  [self.__queue] stands in the body
    of [uvm_tlm_fifo_base]; [PutExport] is a free name of the function. *)
Definition uvm_tlm_fifo_base_init_over
    (super_init : loc → value → value → M value)
    (self : loc) (name parent : value) : M value :=
  super_init self name parent ;;;
  setattr_ self (mangle "uvm_tlm_fifo_base" "__queue") VNone ;;;
  PutExport <- load_global "PutExport" ;;
  put_export <- call0 PutExport ;;
  setattr_ self "put_export" put_export ;;;
  ret VNone.

Definition uvm_tlm_fifo_base_init : loc → value → value → M value :=
  uvm_tlm_fifo_base_init_over uvm_component_init.

(** [cls(args...)]: allocation, then the [__init__] the class resolves to. *)
Definition construct (c : string) (args : list value) : M value :=
  match find_method c "__init__", args with
  | None, _ :: _ => raise TypeError
  | None, [] => self <- new_instance c ;; ret (VRef self)
  | Some k, _ =>
      self <- new_instance c ;;
      (if String.eqb k "uvm_tlm_fifo_base" then
         match args with
         | [name; parent] => uvm_tlm_fifo_base_init self name parent
         | _ => raise TypeError
         end
       else call_method k "__init__" self args) ;;;
      ret (VRef self)
  end.

Definition call (f : value) (args : list value) : M value :=
  match f with
  | VClass c => construct c args
  | VMethod self c m => call_method c m self args
  | VFunc c m =>
      match args with
      | VRef self :: rest => call_method c m self rest
      | _ => raise TypeError
      end
  | _ => raise TypeError
  end.

(** [obj.op(args...)]: look the attribute up, then call what was found. *)
Definition invoke (obj : value) (op : string) (args : list value) : M value :=
  f <- getattr_ obj op ;;
  call f args.

(** ** Observations on a state *)

Definition attrs_of (h : heap) (l : loc) : gmap string value :=
  match h !! l with
  | Some (Instance _ attrs) => attrs
  | _ => ∅
  end.

(** [l.a] as stored on the instance itself *)
Definition attr (h : heap) (l : loc) (a : string) : option value :=
  attrs_of h l !! a.

Definition items_of (h : heap) (d : loc) : gmap key value :=
  match h !! d with
  | Some (Dict items) => items
  | _ => ∅
  end.

(** [d.get(k)] for a dict value [d] and a string [k] *)
Definition dict_get (h : heap) (d : value) (k : string) : option value :=
  match d with
  | VRef l => items_of h l !! KStr k
  | _ => None
  end.

(** The dict an attribute of an object refers to, read at a key. *)
Definition map_entry (h : heap) (obj : value) (a k : string) : option value :=
  match obj with
  | VRef l => match attr h l a with
              | Some d => dict_get h d k
              | None => None
              end
  | _ => None
  end.

(** The outcome is an exception whose class has the given name. *)
Definition raises_named {A} (name : string) (r : heap * outcome A) : Prop :=
  ∃ e, r.2 = Raise e ∧ exn_name e = name.

(** The provider has every operation of the capability set [imp_type]. *)
Definition implements (h : heap) (provider : value) (imp_type : string) : bool :=
  forallb (λ op, match getattr_ provider op h with
                 | (_, Ret _) => true
                 | _ => false
                 end)
          (function_names imp_type).

(** ** Ports on which [connect] has not completed *)

(** What a port can carry before any method is bound: the attributes
    [__init__] stores and the private [__export] of [connect]. *)
Definition port_attrs : list string :=
  [ "full_name"; "connected_to"; "_imp_type"; "uvm_methods";
    mangle "uvm_port_base" "__export" ].

Definition unbound (h : heap) (p : loc) (c : string) : Prop :=
  ∃ attrs imp_type,
    h !! p = Some (Instance c attrs) ∧
    port_imp_type c = Some imp_type ∧
    attrs !! "_imp_type" = Some (VClass imp_type) ∧
    attrs !! "uvm_methods" = Some (VNames (function_names imp_type)) ∧
    ∀ a, is_Some (attrs !! a) → inb a port_attrs = true.

(** A port of class [c] at [p] is unconnected when it has just been
    constructed, when a [connect] on it has raised, or when the program
    went on without touching it. *)
Inductive unconnected : heap → loc → string → Prop :=
  | unconnected_new h c name parent h' p :
      In c port_class_names →
      construct c [name; parent] h = (h', Ret (VRef p)) →
      unconnected h' p c
  | unconnected_failed h p c export h' e :
      unconnected h p c →
      connect p export h = (h', Raise e) →
      unconnected h' p c
  | unconnected_frame h h' p c :
      unconnected h p c →
      h' !! p = h !! p →
      unconnected h' p c.

(** ** Programs used as concrete inputs *)

Definition as_loc (v : value) : M loc :=
  match v with
  | VRef l => ret l
  | _ => raise TypeError
  end.

(** [obj.provided_to = {}], done by the code that owns the provider. *)
Definition give_provided_to (obj : value) : M unit :=
  l <- as_loc obj ;;
  d <- alloc (Dict ∅) ;;
  setattr_ l "provided_to" (VRef d).

(** A component that is no provider of [put], made bindable:
    [port = uvm_blocking_put_port("p", None)],
    [other = uvm_component("other", None)], [other.provided_to = {}]. *)
Definition setup_mismatch : M (value * value) :=
  port <- construct "uvm_blocking_put_port" [VStr "p"; VNone] ;;
  other <- construct "uvm_component" [VStr "other"; VNone] ;;
  give_provided_to other ;;;
  ret (port, other).

(** A put provider with everything the protocol and its own methods read,
    stored by hand: [prov = uvm_tlm_fifo_base.PutExport()],
    [prov.full_name = "prov"], [prov.provided_to = {}],
    [prov._PutExport__queue = Queue(1)]; and
    [port = uvm_put_port("p", None)]. *)
Definition setup_put_provider : M (value * value) :=
  port <- construct "uvm_put_port" [VStr "p"; VNone] ;;
  prov <- construct "PutExport" [] ;;
  l <- as_loc prov ;;
  setattr_ l "full_name" (VStr "prov") ;;;
  give_provided_to prov ;;;
  q <- alloc (QueueObj 1 []) ;;
  setattr_ l (mangle "PutExport" "__queue") (VRef q) ;;;
  ret (port, prov).


(** Running a program from the empty store. *)
Definition run {A} (c : M A) : heap * outcome A := c ∅.

(** Every function name some class statement of the module defines. *)
Definition all_function_names : list string :=
  flat_map (λ e, functions (snd e)) classes.

(** ** Reasoning about a run

    [post m h Q]: the run of [m] from [h] ends in a state and an outcome
    that satisfy [Q]. *)
Definition post {A} (m : M A) (h : heap) (Q : heap → outcome A → Prop) : Prop :=
  Q (m h).1 (m h).2.

(** What a continuation has to establish after a step with outcome [r]. *)
Definition after {A B} (k : A → M B) (Q : heap → outcome B → Prop)
    (h : heap) (r : outcome A) : Prop :=
  match r with
  | Ret a => post (k a) h Q
  | Raise e => Q h (Raise e)
  | Block => Q h Block
  end.

(** ** The binding protocol: what [connect] is given and what it leaves *)




(** ** Sequences of channel calls *)

(** [for x in xs: pe.put(x)] *)
Definition put_all (pe : loc) (xs : list value) : M unit :=
  for_each xs (λ x, PutExport_put pe x ;;; ret tt).

(** [[ge.get() for _ in range(n)]] *)
Fixpoint get_n (ge : loc) (n : nat) : M (list value) :=
  match n with
  | O => ret []
  | S n' =>
      x <- GetPeekExport_get ge ;;
      xs <- get_n ge n' ;;
      ret (x :: xs)
  end.

(** A put export [pe] and a get export [ge] as they stand when the queue
    [q] holds [items]. *)
Definition holds (pe ge q : loc) (pc gc : string)
    (pattrs gattrs : gmap string value) (maxsize : Z)
    (h : heap) (items : list value) : Prop :=
  h !! pe = Some (Instance pc pattrs) ∧
  h !! ge = Some (Instance gc gattrs) ∧
  h !! q = Some (QueueObj maxsize items).

(** Two exports that have been handed one queue of capacity 1 by hand:
    [pe._PutExport__queue = ge._GetPeekExport__queue = Queue(1)].  [ge]
    stands for an instance of a subclass of [GetPeekExport] that supplies
    the two methods it leaves abstract. *)
Definition shared_queue_state : heap :=
  <[1%positive := Instance "PutExport"
                    {[ mangle "PutExport" "__queue" := VRef 3%positive ]}]>
  (<[2%positive := Instance "GetPeekExport"
                    {[ mangle "GetPeekExport" "__queue" := VRef 3%positive ]}]>
  (<[3%positive := QueueObj 1 []]> ∅)).

(** Two exports that have been handed one queue by hand, as in
    [shared_queue_state], with any bound and content. *)
Definition queue_state (maxsize : Z) (items : list value) : heap :=
  <[1%positive := Instance "PutExport"
                    {[ mangle "PutExport" "__queue" := VRef 3%positive ]}]>
  (<[2%positive := Instance "GetPeekExport"
                    {[ mangle "GetPeekExport" "__queue" := VRef 3%positive ]}]>
  (<[3%positive := QueueObj maxsize items]> ∅)).

(** The attributes of the two exports of [queue_state]. *)
Definition put_export_attrs : gmap string value :=
  {[ mangle "PutExport" "__queue" := VRef 3%positive ]}.
Definition get_export_attrs : gmap string value :=
  {[ mangle "GetPeekExport" "__queue" := VRef 3%positive ]}.

(** How many more items a queue takes before it is full. *)
Definition room (maxsize : Z) (items : list value) : nat :=
  Z.to_nat (maxsize - Z.of_nat (length items)).

(** [try_put(5); try_put(6); can_put(); get(); can_put()] on [pe] and
    [ge], results in order. *)
Definition capacity_one_calls (pe ge : loc) : M (list value) :=
  r1 <- PutExport_try_put pe (VInt 5) ;;
  r2 <- PutExport_try_put pe (VInt 6) ;;
  r3 <- PutExport_can_put pe ;;
  r4 <- GetPeekExport_get ge ;;
  r5 <- PutExport_can_put pe ;;
  ret [r1; r2; r3; r4; r5].

(** ** The capability classes *)

(** The twenty-two [_imp] classes, in the order of the source. *)
Definition imp_class_names : list string :=
  [ "uvm_blocking_put_imp"; "uvm_nonblocking_put_imp"; "uvm_put_imp";
    "uvm_blocking_get_imp"; "uvm_nonblocking_get_imp"; "uvm_analysis_imp";
    "uvm_get_imp"; "uvm_blocking_peek_imp"; "uvm_nonblocking_peek_imp";
    "uvm_peek_imp"; "uvm_blocking_get_peek_imp";
    "uvm_nonblocking_get_peek_imp"; "uvm_get_peek_imp";
    "uvm_blocking_transport_imp"; "uvm_non_blocking_transport_imp";
    "uvm_transport_imp"; "uvm_blocking_master_imp";
    "uvm_nonblocking_master_imp"; "uvm_master_imp";
    "uvm_blocking_slave_imp"; "uvm_nonblocking_slave_imp"; "uvm_slave_imp" ].

(** The functions a class statement contributes itself and the ones its
    bases bring. *)
Definition own_and_inherited (def : class_def) : list string :=
  functions def ++ flat_map function_names (bases def).

Definition same_names (l1 l2 : list string) : bool :=
  forallb (λ x, inb x l2) l1 && forallb (λ x, inb x l1) l2.

(** ** A port as [__init__] leaves it

    From [h] to [h'] a port of class [c] appeared at [p], with a new empty
    dict [d] as its [connected_to], the imp class and its operation names
    stored, and nothing else touched. *)
Definition fresh_port (h h' : heap) (p : loc) (c imp_type : string) : Prop :=
  ∃ d attrs,
    h !! p = None ∧ h !! d = None ∧ d ≠ p ∧
    h' !! p = Some (Instance c attrs) ∧
    h' !! d = Some (Dict ∅) ∧
    attrs !! "connected_to" = Some (VRef d) ∧
    attrs !! "_imp_type" = Some (VClass imp_type) ∧
    attrs !! "uvm_methods" = Some (VNames (function_names imp_type)) ∧
    ∀ l, l ≠ p → l ≠ d → h' !! l = h !! l.

(** ** Calls on a pair of exports *)

Inductive channel_call : Type :=
  | CallPut (item : value)
  | CallTryPut (item : value)
  | CallCanPut
  | CallGet
  | CallTryGet
  | CallCanGet
  | CallPeek.

Definition do_call (pe ge : loc) (c : channel_call) : M value :=
  match c with
  | CallPut item => PutExport_put pe item
  | CallTryPut item => PutExport_try_put pe item
  | CallCanPut => PutExport_can_put pe
  | CallGet => GetPeekExport_get ge
  | CallTryGet => GetPeekExport_try_get ge
  | CallCanGet => GetPeekExport_can_get ge
  | CallPeek => GetPeekExport_peek ge
  end.

(** The state after the calls, made one after the other whatever each of
    them returned or raised. *)
Definition after_calls (pe ge : loc) (cs : list channel_call) (h : heap) : heap :=
  fold_left (λ h c, (do_call pe ge c h).1) cs h.

(** [peek()] and then [get()] *)
Definition peek_then_get (ge : loc) : M (value * value) :=
  a <- GetPeekExport_peek ge ;;
  b <- GetPeekExport_get ge ;;
  ret (a, b).

(** A port and a [PutExport] exactly as the module creates them:
    [port = uvm_put_port("p", None)],
    [prov = uvm_tlm_fifo_base.PutExport()]. *)
Definition setup_module_pair : M (value * value) :=
  port <- construct "uvm_put_port" [VStr "p"; VNone] ;;
  prov <- construct "PutExport" [] ;;
  ret (port, prov).

(** A port and a provider that has a name and no [provided_to]:
    [port = uvm_put_port("p", None)],
    [prov = uvm_tlm_fifo_base.PutExport()], [prov.full_name = "prov"]. *)
Definition setup_named_provider : M (value * value) :=
  port <- construct "uvm_put_port" [VStr "p"; VNone] ;;
  prov <- construct "PutExport" [] ;;
  l <- as_loc prov ;;
  setattr_ l "full_name" (VStr "prov") ;;;
  ret (port, prov).

(** ** What a run of calls accepted and delivered *)

(** The item a call put into the channel: the argument of a [put] that
    returned and of a [try_put] that returned [True]. *)
Definition accepted_by (c : channel_call) (r : outcome value) : list value :=
  match c, r with
  | CallPut x, Ret _ => [x]
  | CallTryPut x, Ret (VBool true) => [x]
  | _, _ => []
  end.

(** The item a call took out of the channel: what a [get] returned, and
    what a [try_get] returned when [can_get()] was [True] in the state [h]
    it was called in ([try_get] on an empty channel returns [None] and
    delivers nothing). *)
Definition delivered_by (ge : loc) (c : channel_call) (h : heap)
    (r : outcome value) : list value :=
  match c, r with
  | CallGet, Ret x => [x]
  | CallTryGet, Ret x =>
      match (GetPeekExport_can_get ge h).2 with
      | Ret (VBool true) => [x]
      | _ => []
      end
  | _, _ => []
  end.

(** The calls [cs] made one after the other from [h]: the items accepted,
    the items delivered, both in the order of the calls, and the state
    reached.  A call that would wait ([put] on a full queue, [get] on an
    empty one) has not happened: it changes nothing, accepts nothing and
    delivers nothing. *)
Fixpoint history (pe ge : loc) (cs : list channel_call) (h : heap)
    : list value * list value * heap :=
  match cs with
  | [] => ([], [], h)
  | c :: cs' =>
      let '(h1, r) := do_call pe ge c h in
      let '(acc, del, h') := history pe ge cs' h1 in
      ((accepted_by c r ++ acc)%list, (delivered_by ge c h r ++ del)%list, h')
  end.

(** [peek()] and then [peek()] *)
Definition peek_twice (ge : loc) : M (value * value) :=
  a <- GetPeekExport_peek ge ;;
  b <- GetPeekExport_peek ge ;;
  ret (a, b).

(** The thirteen [_imp] classes whose statement has bases other than [ABC]
    and a docstring for a body. *)
Definition composed_imp_class_names : list string :=
  [ "uvm_put_imp"; "uvm_get_imp"; "uvm_peek_imp";
    "uvm_blocking_get_peek_imp"; "uvm_nonblocking_get_peek_imp";
    "uvm_get_peek_imp"; "uvm_transport_imp";
    "uvm_blocking_master_imp"; "uvm_nonblocking_master_imp"; "uvm_master_imp";
    "uvm_blocking_slave_imp"; "uvm_nonblocking_slave_imp"; "uvm_slave_imp" ].


(* ================================================================== *)
(** * Properties *)

(** ** The monad *)

Lemma bind_Ret {A B} (c : M A) (k : A → M B) h h' a :
  c h = (h', Ret a) → bind c k h = k a h'.
Proof. intros E. unfold bind. by rewrite E. Qed.

Lemma bind_Raise {A B} (c : M A) (k : A → M B) h h' e :
  c h = (h', Raise e) → bind c k h = (h', Raise e).
Proof. intros E. unfold bind. by rewrite E. Qed.

Lemma bind_Block {A B} (c : M A) (k : A → M B) h h' :
  c h = (h', Block) → bind c k h = (h', Block).
Proof. intros E. unfold bind. by rewrite E. Qed.

Lemma try_except_other {A} (c handler : M A) E h h' e :
  c h = (h', Raise e) → exn_eqb e E = false →
  try_except c E handler h = (h', Raise e).
Proof. intros Hc He. unfold try_except. by rewrite Hc, He. Qed.

(** ** The class table *)

Lemma inb_In x l : inb x l = true ↔ In x l.
Proof.
  unfold inb. rewrite existsb_exists. split.
  - intros (y & Hy & E). apply String.eqb_eq in E. by subst.
  - intros H. exists x. split; [done | apply String.eqb_refl].
Qed.

Lemma inb_false_not_In x l : inb x l = false → ¬ In x l.
Proof. intros E H. apply inb_In in H. congruence. Qed.

Lemma class_def_of_In c def :
  class_def_of c = Some def → In (c, def) classes.
Proof.
  unfold class_def_of. destruct (find _ classes) as [[k d]|] eqn:E; [|done].
  intros [= <-]. apply find_some in E as [HIn Heq].
  apply String.eqb_eq in Heq. simpl in Heq. by subst.
Qed.

Lemma find_method_defined c f k :
  find_method c f = Some k → In f all_function_names.
Proof.
  unfold find_method. intros E. apply find_some in E as [_ Hd].
  unfold defines in Hd.
  destruct (class_def_of k) as [def|] eqn:Ek; [|done].
  apply inb_In in Hd. apply class_def_of_In in Ek.
  unfold all_function_names. apply in_flat_map. by exists (k, def).
Qed.

(** A name no class statement defines is found in no hierarchy. *)
Lemma find_method_undefined c f :
  inb f all_function_names = false → find_method c f = None.
Proof.
  intros E. destruct (find_method c f) as [k|] eqn:Ef; [|done].
  apply find_method_defined in Ef. by apply inb_false_not_In in E.
Qed.

(** ** Attribute access *)

Lemma getattr_own h l c attrs a x :
  h !! l = Some (Instance c attrs) → attrs !! a = Some x →
  getattr_ (VRef l) a h = (h, Ret x).
Proof. intros Hl Ha. unfold getattr_. by rewrite Hl, Ha. Qed.

Lemma getattr_method h l c attrs a k :
  h !! l = Some (Instance c attrs) → attrs !! a = None →
  find_method c a = Some k →
  getattr_ (VRef l) a h = (h, Ret (VMethod l k a)).
Proof. intros Hl Ha Hf. unfold getattr_. by rewrite Hl, Ha, Hf. Qed.

Lemma getattr_missing h l c attrs a :
  h !! l = Some (Instance c attrs) → attrs !! a = None →
  find_method c a = None →
  getattr_ (VRef l) a h = (h, Raise AttributeError).
Proof. intros Hl Ha Hf. unfold getattr_. by rewrite Hl, Ha, Hf. Qed.

(** Reading an attribute changes nothing; it yields a value or an
    [AttributeError]. *)
Lemma getattr_cases v a h :
  (∃ x, getattr_ v a h = (h, Ret x)) ∨
  getattr_ v a h = (h, Raise AttributeError).
Proof.
  unfold getattr_. destruct v; auto.
  - destruct (find_method c a); eauto.
  - destruct (h !! l) as [[c attrs| |]|]; auto.
    destruct (attrs !! a); eauto. destruct (find_method c a); eauto.
Qed.

(** A private name of an export that the instance does not carry. *)
Lemma getattr_private_missing h l c attrs k :
  h !! l = Some (Instance c attrs) →
  inb (mangle k "__queue") all_function_names = false →
  attrs !! mangle k "__queue" = None →
  getattr_ (VRef l) (mangle k "__queue") h = (h, Raise AttributeError).
Proof.
  intros Hl Hn Ha. eapply getattr_missing; eauto.
  by apply find_method_undefined.
Qed.

Lemma setattr_instance h l c attrs a v :
  h !! l = Some (Instance c attrs) →
  setattr_ l a v h = (<[l := Instance c (<[a := v]> attrs)]> h, Ret tt).
Proof. intros Hl. unfold setattr_. by rewrite Hl. Qed.

Lemma alloc_fresh o h :
  ∃ l, h !! l = None ∧ alloc o h = (<[l := o]> h, Ret l).
Proof.
  exists (fresh (dom h)). split; [|done].
  apply not_elem_of_dom. apply is_fresh.
Qed.

(** ** The owning component and object creation *)

(** [uvm_component.__init__] either raises, leaving the store as it was, or
    stores the qualified name and returns. *)
Lemma uvm_component_init_cases h self c attrs name parent :
  h !! self = Some (Instance c attrs) →
  (∃ e, uvm_component_init self name parent h = (h, Raise e)) ∨
  (∃ fn, uvm_component_init self name parent h
         = (<[self := Instance c (<["full_name" := fn]> attrs)]> h, Ret VNone)).
Proof.
  intros Hs. unfold uvm_component_init.
  match goal with |- context [bind ?i _] => set (inner := i) end.
  assert (Hinner : (∃ e, inner h = (h, Raise e)) ∨ (∃ fn, inner h = (h, Ret fn))).
  { subst inner.
    destruct (getattr_cases parent "full_name" h) as [[pfn E]|E];
      destruct parent; try (right; by eexists);
      try (left; eexists; by apply bind_Raise);
      rewrite (bind_Ret _ _ _ _ _ E);
      destruct pfn, name; try (left; by eexists); right; by eexists. }
  destruct Hinner as [[e E]|[fn E]].
  - left. exists e. by apply bind_Raise.
  - right. exists fn. rewrite (bind_Ret _ _ _ _ _ E).
    by rewrite (bind_Ret _ _ _ _ _ (setattr_instance _ _ _ _ _ fn Hs)).
Qed.

Lemma uvm_component_init_no_parent h self c attrs name :
  h !! self = Some (Instance c attrs) →
  uvm_component_init self name VNone h
  = (<[self := Instance c (<["full_name" := name]> attrs)]> h, Ret VNone).
Proof.
  intros Hs. unfold uvm_component_init.
  rewrite (bind_Ret _ _ h h name); [|done].
  by rewrite (bind_Ret _ _ _ _ _ (setattr_instance _ _ _ _ _ name Hs)).
Qed.

Lemma new_instance_concrete c h :
  abstract_methods c = [] →
  ∃ l, h !! l = None ∧
       new_instance c h = (<[l := Instance c ∅]> h, Ret l).
Proof. intros E. unfold new_instance. rewrite E. apply alloc_fresh. Qed.

Lemma construct_PutExport h :
  ∃ l, h !! l = None ∧
       construct "PutExport" [] h
       = (<[l := Instance "PutExport" ∅]> h, Ret (VRef l)).
Proof.
  destruct (new_instance_concrete "PutExport" h) as (l & Hl & E);
    [by vm_compute|].
  exists l. split; [done|].
  unfold construct.
  replace (find_method "PutExport" "__init__") with (@None string)
    by (by vm_compute).
  by rewrite (bind_Ret _ _ _ _ _ E).
Qed.

(** [GetPeekExport] leaves [try_peek] and [can_peek] abstract. *)
Lemma construct_GetPeekExport h :
  construct "GetPeekExport" [] h = (h, Raise TypeError).
Proof.
  unfold construct.
  replace (find_method "GetPeekExport" "__init__") with (@None string)
    by (by vm_compute).
  unfold new_instance.
  replace (abstract_methods "GetPeekExport") with ["can_peek"; "try_peek"]
    by (by vm_compute).
  done.
Qed.

(** ** The exports without a queue *)

Lemma private_queue_undefined k :
  k = "PutExport" ∨ k = "GetPeekExport" ∨ k = "uvm_tlm_fifo_base" →
  inb (mangle k "__queue") all_function_names = false.
Proof. intros [->|[->| ->]]; by vm_compute. Qed.

Section without_queue.
Variables (h : heap) (self : loc) (c : string) (attrs : gmap string value).
Hypothesis Hself : h !! self = Some (Instance c attrs).

Lemma PutExport_put_without_queue item :
  attrs !! mangle "PutExport" "__queue" = None →
  PutExport_put self item h = (h, Raise AttributeError).
Proof.
  intros Ha. unfold PutExport_put. apply bind_Raise.
  eapply getattr_private_missing;
    [exact Hself | apply private_queue_undefined; auto | done].
Qed.

Lemma PutExport_can_put_without_queue :
  attrs !! mangle "PutExport" "__queue" = None →
  PutExport_can_put self h = (h, Raise AttributeError).
Proof.
  intros Ha. unfold PutExport_can_put. apply bind_Raise.
  eapply getattr_private_missing;
    [exact Hself | apply private_queue_undefined; auto | done].
Qed.

Lemma PutExport_try_put_without_queue item :
  attrs !! mangle "PutExport" "__queue" = None →
  PutExport_try_put self item h = (h, Raise AttributeError).
Proof.
  intros Ha. unfold PutExport_try_put.
  apply try_except_other; [|done]. apply bind_Raise.
  eapply getattr_private_missing;
    [exact Hself | apply private_queue_undefined; auto | done].
Qed.

Lemma GetPeekExport_get_without_queue :
  attrs !! mangle "GetPeekExport" "__queue" = None →
  GetPeekExport_get self h = (h, Raise AttributeError).
Proof.
  intros Ha. unfold GetPeekExport_get. apply bind_Raise.
  eapply getattr_private_missing;
    [exact Hself | apply private_queue_undefined; auto | done].
Qed.

Lemma GetPeekExport_try_get_without_queue :
  attrs !! mangle "GetPeekExport" "__queue" = None →
  GetPeekExport_try_get self h = (h, Raise AttributeError).
Proof.
  intros Ha. unfold GetPeekExport_try_get.
  apply try_except_other; [|done]. apply bind_Raise.
  eapply getattr_private_missing;
    [exact Hself | apply private_queue_undefined; auto | done].
Qed.

Lemma GetPeekExport_peek_without_queue :
  attrs !! mangle "GetPeekExport" "__queue" = None →
  GetPeekExport_peek self h = (h, Raise AttributeError).
Proof.
  intros Ha. unfold GetPeekExport_peek. apply bind_Raise.
  eapply getattr_private_missing;
    [exact Hself | apply private_queue_undefined; auto | done].
Qed.
End without_queue.

(** Calling an operation of a [PutExport] that was just created: the
    method is found in the class and its body is entered. *)
Lemma invoke_fresh_PutExport h l op args :
  inb op ["put"; "can_put"; "try_put"] = true →
  invoke (VRef l) op args (<[l := Instance "PutExport" ∅]> h)
  = call_method "PutExport" op l args (<[l := Instance "PutExport" ∅]> h).
Proof.
  intros Hop. unfold invoke.
  assert (Hf : find_method "PutExport" op = Some "PutExport").
  { apply inb_In in Hop. simpl in Hop.
    destruct Hop as [<-|[<-|[<-|[]]]]; by vm_compute. }
  pose proof (getattr_method (<[l := Instance "PutExport" ∅]> h) l
                "PutExport" ∅ op "PutExport") as G.
  by rewrite (bind_Ret _ _ _ _ _
                (G ltac:(apply lookup_insert_eq) ltac:(apply lookup_empty) Hf)).
Qed.

(** ** The FIFO constructor *)

Lemma load_global_PutExport h : load_global "PutExport" h = (h, Raise NameError).
Proof. by vm_compute. Qed.

(** Whatever the constructor of the base class does, the body of
    [uvm_tlm_fifo_base.__init__] does not run to its end. *)
Lemma uvm_tlm_fifo_base_init_never_returns super_init self name parent h h' v :
  uvm_tlm_fifo_base_init_over super_init self name parent h ≠ (h', Ret v).
Proof.
  unfold uvm_tlm_fifo_base_init_over, bind.
  destruct (super_init self name parent h) as [h1 [a|e|]]; [|done..].
  destruct (setattr_ self _ VNone h1) as [h2 [u|e|]]; [|done..].
  by rewrite load_global_PutExport.
Qed.

Lemma uvm_tlm_fifo_base_init_raises h self c attrs name parent :
  h !! self = Some (Instance c attrs) →
  ∃ h' e, uvm_tlm_fifo_base_init self name parent h = (h', Raise e) ∧
          (parent = VNone → e = NameError).
Proof.
  intros Hs. unfold uvm_tlm_fifo_base_init, uvm_tlm_fifo_base_init_over.
  destruct (uvm_component_init_cases h self c attrs name parent Hs)
    as [[e E]|[fn E]].
  - exists h, e. split; [by apply bind_Raise|].
    intros ->. rewrite (uvm_component_init_no_parent _ _ _ _ _ Hs) in E.
    congruence.
  - rewrite (bind_Ret _ _ _ _ _ E).
    erewrite bind_Ret; [|apply setattr_instance, lookup_insert_eq].
    eexists _, NameError. split; [|done].
    apply bind_Raise, load_global_PutExport.
Qed.

Lemma construct_fifo_raises h name parent :
  ∃ h' e, construct "uvm_tlm_fifo_base" [name; parent] h = (h', Raise e) ∧
          (parent = VNone → e = NameError).
Proof.
  destruct (new_instance_concrete "uvm_tlm_fifo_base" h) as (l & Hl & E);
    [by vm_compute|].
  unfold construct.
  replace (find_method "uvm_tlm_fifo_base" "__init__")
    with (Some "uvm_tlm_fifo_base") by (by vm_compute).
  rewrite (bind_Ret _ _ _ _ _ E). cbv beta iota.
  destruct (uvm_tlm_fifo_base_init_raises (<[l := Instance "uvm_tlm_fifo_base" ∅]> h)
              l "uvm_tlm_fifo_base" ∅ name parent) as (h' & e & E' & He);
    [apply lookup_insert_eq|].
  exists h', e. split; [by apply bind_Raise | done].
Qed.

(** C2.  Constructing [uvm_tlm_fifo_base(name, parent)] raises for every
    name and parent: [PutExport] is not a name the constructor can see
    ([NameError], unless the component constructor raised before), and the
    body cannot run to its end whatever the base constructor does.  The
    constructor stores [None] under the private name of
    [uvm_tlm_fifo_base], the export methods read the private name of their
    own class on the export, and those three names differ.  So every
    [PutExport] that can be created raises [AttributeError] from [put],
    [can_put] and [try_put]; [GetPeekExport] cannot be created at all, and
    its [get], [try_get] and [peek] raise [AttributeError] on any instance
    that lacks its private name. *)
Theorem fifo_cannot_be_constructed_or_used :
  (∀ h name parent,
     ∃ h' e, construct "uvm_tlm_fifo_base" [name; parent] h = (h', Raise e) ∧
             (parent = VNone → e = NameError)) ∧
  (∀ super_init self name parent h h' v,
     uvm_tlm_fifo_base_init_over super_init self name parent h ≠ (h', Ret v)) ∧
  (∀ h, load_global "PutExport" h = (h, Raise NameError)) ∧
  (mangle "uvm_tlm_fifo_base" "__queue" = "_uvm_tlm_fifo_base__queue" ∧
   mangle "PutExport" "__queue" = "_PutExport__queue" ∧
   mangle "GetPeekExport" "__queue" = "_GetPeekExport__queue") ∧
  (∀ h item,
     ∃ h' l, construct "PutExport" [] h = (h', Ret (VRef l)) ∧
             invoke (VRef l) "put" [item] h' = (h', Raise AttributeError) ∧
             invoke (VRef l) "try_put" [item] h' = (h', Raise AttributeError) ∧
             invoke (VRef l) "can_put" [] h' = (h', Raise AttributeError)) ∧
  (∀ h, construct "GetPeekExport" [] h = (h, Raise TypeError)) ∧
  (∀ h self c attrs,
     let h' := <[self := Instance c (delete (mangle "GetPeekExport" "__queue") attrs)]> h in
     GetPeekExport_get self h' = (h', Raise AttributeError) ∧
     GetPeekExport_try_get self h' = (h', Raise AttributeError) ∧
     GetPeekExport_peek self h' = (h', Raise AttributeError)).
Proof.
  split; [apply construct_fifo_raises|].
  split; [apply uvm_tlm_fifo_base_init_never_returns|].
  split; [apply load_global_PutExport|].
  split; [by vm_compute|].
  split; [|split; [apply construct_GetPeekExport|]].
  - intros h item. destruct (construct_PutExport h) as (l & _ & E).
    eexists _, l. split; [exact E|].
    rewrite !invoke_fresh_PutExport by done.
    split; [|split].
    + eapply PutExport_put_without_queue; [apply lookup_insert_eq | apply lookup_empty].
    + eapply PutExport_try_put_without_queue; [apply lookup_insert_eq | apply lookup_empty].
    + eapply PutExport_can_put_without_queue; [apply lookup_insert_eq | apply lookup_empty].
  - intros h self c attrs h'. subst h'. split; [|split].
    + eapply GetPeekExport_get_without_queue; [apply lookup_insert_eq | apply lookup_delete_eq].
    + eapply GetPeekExport_try_get_without_queue; [apply lookup_insert_eq | apply lookup_delete_eq].
    + eapply GetPeekExport_peek_without_queue; [apply lookup_insert_eq | apply lookup_delete_eq].
Qed.

(** ** The channel operations on the exports the module can create *)

(** C3.  The capacity-1 scenario cannot start.  The constructor of the
    FIFO raises [NameError] and takes no capacity (a third argument is a
    [TypeError]); a [PutExport] created on its own raises [AttributeError]
    from [try_put(5)] instead of returning true; [GetPeekExport], the only
    class with a [get], cannot be instantiated. *)
Theorem capacity_one_scenario_cannot_start :
  (run (construct "uvm_tlm_fifo_base" [VStr "fifo"; VNone])).2 = Raise NameError ∧
  (run (construct "uvm_tlm_fifo_base" [VStr "fifo"; VNone; VInt 1])).2
    = Raise TypeError ∧
  (run (pe <- construct "PutExport" [] ;; invoke pe "try_put" [VInt 5])).2
    = Raise AttributeError ∧
  (run (pe <- construct "PutExport" [] ;; invoke pe "can_put" [])).2
    = Raise AttributeError ∧
  (run (construct "GetPeekExport" [])).2 = Raise TypeError.
Proof. repeat split; vm_compute; reflexivity. Qed.

(** C7.  On every [PutExport] the module can create, in every store and
    for every item, [try_put(item)] lets an [AttributeError] escape and
    leaves the store as it was: it returns neither true nor false. *)
Theorem try_put_lets_AttributeError_escape :
  ∀ h item,
    ∃ h' l, construct "PutExport" [] h = (h', Ret (VRef l)) ∧
            invoke (VRef l) "try_put" [item] h' = (h', Raise AttributeError).
Proof.
  intros h item. destruct (construct_PutExport h) as (l & _ & E).
  eexists _, l. split; [exact E|].
  rewrite invoke_fresh_PutExport by done.
  eapply PutExport_try_put_without_queue; [apply lookup_insert_eq | apply lookup_empty].
Qed.

(** C8.  There is no export to call [try_get] on: instantiating
    [GetPeekExport] raises [TypeError] in every store.  On any instance
    that does not carry the private name [_GetPeekExport__queue] (nothing
    in the module stores it), [try_get] lets an [AttributeError] escape
    instead of returning [None] or the head. *)
Theorem try_get_has_no_export_and_no_queue :
  (∀ h, construct "GetPeekExport" [] h = (h, Raise TypeError)) ∧
  (∀ h self c attrs,
     let h' := <[self := Instance c (delete (mangle "GetPeekExport" "__queue") attrs)]> h in
     GetPeekExport_try_get self h' = (h', Raise AttributeError)).
Proof.
  split; [apply construct_GetPeekExport|].
  intros h self c attrs h'. subst h'.
  eapply GetPeekExport_try_get_without_queue;
    [apply lookup_insert_eq | apply lookup_delete_eq].
Qed.

(** ** [connect] at two concrete pairs *)

(** C1.  [connect] does not check the provider.  [other] is a component
    without [put]: it does not implement the port's [uvm_blocking_put_imp]
    and [isinstance] says so, yet the value of [isinstance] is dropped, the
    provider is entered in [connected_to] and the port in [provided_to],
    and the exception that ends the call is the [AttributeError] of the
    binding loop.  No exception of the module is a type-mismatch error. *)
Theorem connect_does_not_check_the_provider :
  let h0 := (run setup_mismatch).1 in
  let p := 1%positive in
  let other := VRef 3%positive in
  let h1 := (connect p other h0).1 in
  (run setup_mismatch).2 = Ret (VRef p, other) ∧
  implements h0 other "uvm_blocking_put_imp" = false ∧
  (isinstance_ other (VClass "uvm_blocking_put_imp") h0).2 = Ret false ∧
  map_entry h0 (VRef p) "connected_to" "other" = None ∧
  map_entry h0 other "provided_to" "p" = None ∧
  (connect p other h0).2 = Raise AttributeError ∧
  map_entry h1 (VRef p) "connected_to" "other" = Some other ∧
  map_entry h1 other "provided_to" "p" = Some (VRef p) ∧
  ∀ e, exn_name e ≠ "BindingTypeError".
Proof.
  repeat (split; [vm_compute; reflexivity|]).
  by intros [].
Qed.

(** C5.  [connect] binds no operation.  [prov] is a [PutExport] that
    implements all of [uvm_put_imp] and has been given a name, a
    [provided_to] and a queue of capacity 1; [connect] raises
    [AttributeError] in its first [exec], because the text reads
    [__export] while the assignment before it stored
    [_uvm_port_base__export].  Afterwards the port has none of the
    operations: [prov.try_put(5)] returns true, [port.try_put(5)] raises
    [AttributeError]. *)
Theorem connect_binds_no_operation :
  let h0 := (run setup_put_provider).1 in
  let p := 1%positive in
  let prov := VRef 3%positive in
  let h1 := (connect p prov h0).1 in
  (run setup_put_provider).2 = Ret (VRef p, prov) ∧
  implements h0 prov "uvm_put_imp" = true ∧
  attr h0 p "uvm_methods" = Some (VNames ["can_put"; "put"; "try_put"]) ∧
  (connect p prov h0).2 = Raise AttributeError ∧
  attr h1 p (mangle "uvm_port_base" "__export") = Some prov ∧
  attr h1 p "__export" = None ∧
  attr h1 p "can_put" = None ∧ attr h1 p "put" = None ∧
  attr h1 p "try_put" = None ∧
  (invoke prov "try_put" [VInt 5] h1).2 = Ret (VBool true) ∧
  (invoke (VRef p) "try_put" [VInt 5] h1).2 = Raise AttributeError ∧
  (invoke prov "can_put" [] h1).2 = Ret (VBool true) ∧
  (invoke (VRef p) "can_put" [] h1).2 = Raise AttributeError.
Proof. repeat split; vm_compute; reflexivity. Qed.

(** ** Rules for [post] *)

Lemma post_eq {A} (m : M A) h h' r (Q : heap → outcome A → Prop) :
  m h = (h', r) → Q h' r → post m h Q.
Proof. intros E HQ. unfold post. by rewrite E. Qed.

Lemma post_run {A} (m : M A) h h' r (Q : heap → outcome A → Prop) :
  post m h Q → m h = (h', r) → Q h' r.
Proof. unfold post. intros HQ E. by rewrite E in HQ. Qed.

Lemma post_bind {A B} (m : M A) (k : A → M B) h Q :
  post m h (after k Q) → post (bind m k) h Q.
Proof.
  unfold post, bind, after. by destruct (m h) as [h' [a|e|]].
Qed.

Lemma post_ret {A} (a : A) h (Q : heap → outcome A → Prop) :
  Q h (Ret a) → post (ret a) h Q.
Proof. done. Qed.

Lemma post_raise {A} e h (Q : heap → outcome A → Prop) :
  Q h (Raise e) → post (raise e) h Q.
Proof. done. Qed.

Lemma post_getattr v a h (Q : heap → outcome value → Prop) :
  (∀ x, Q h (Ret x)) → Q h (Raise AttributeError) →
  post (getattr_ v a) h Q.
Proof.
  intros HR HE. destruct (getattr_cases v a h) as [[x E]|E];
    eapply post_eq; eauto.
Qed.

Lemma post_getattr_own h l c attrs a x (Q : heap → outcome value → Prop) :
  h !! l = Some (Instance c attrs) → attrs !! a = Some x →
  Q h (Ret x) → post (getattr_ (VRef l) a) h Q.
Proof. intros Hl Ha HQ. eapply post_eq; [by eapply getattr_own | done]. Qed.

Lemma post_isinstance v k h (Q : heap → outcome bool → Prop) :
  (∀ b, Q h (Ret b)) → Q h (Raise TypeError) →
  post (isinstance_ v k) h Q.
Proof. intros HR HE. unfold post, isinstance_. destruct k; simpl; auto. Qed.

Lemma post_setattr h l c attrs a v (Q : heap → outcome unit → Prop) :
  h !! l = Some (Instance c attrs) →
  Q (<[l := Instance c (<[a := v]> attrs)]> h) (Ret tt) →
  post (setattr_ l a v) h Q.
Proof. intros Hl HQ. eapply post_eq; [by apply setattr_instance | done]. Qed.

Lemma post_setitem d k v h (Q : heap → outcome unit → Prop) :
  Q h (Raise TypeError) →
  (∀ l key items, d = VRef l → key_of h k = Some key →
     h !! l = Some (Dict items) →
     Q (<[l := Dict (<[key := v]> items)]> h) (Ret tt)) →
  post (setitem d k v) h Q.
Proof.
  intros HE HR. unfold post, setitem.
  destruct d; try done.
  destruct (h !! l) as [[| items |]|] eqn:E; try done.
  destruct (key_of h k) as [key|] eqn:Ek; try done.
  simpl. by eapply HR.
Qed.

Lemma post_alloc o h (Q : heap → outcome loc → Prop) :
  (∀ l, h !! l = None → Q (<[l := o]> h) (Ret l)) →
  post (alloc o) h Q.
Proof.
  intros HQ. destruct (alloc_fresh o h) as (l & Hl & E).
  eapply post_eq; eauto.
Qed.

(** ** The port classes *)

Lemma port_imp_type_In c imp_type :
  port_imp_type c = Some imp_type → In (c, imp_type) port_table.
Proof.
  unfold port_imp_type.
  destruct (find _ port_table) as [[k d]|] eqn:E; [|done].
  intros [= <-]. apply find_some in E as [HIn Heq].
  apply String.eqb_eq in Heq. simpl in Heq. by subst.
Qed.

Ltac port_cases H :=
  unfold port_table in H; simpl in H;
  repeat (destruct H as [H|H]; [inversion H; subst; clear H|]);
  [..|done].

Lemma port_class_imp_type c :
  In c port_class_names → ∃ imp_type, port_imp_type c = Some imp_type.
Proof.
  intros H. unfold port_class_names in H. simpl in H.
  repeat (destruct H as [<-|H]; [eexists; by vm_compute|]). done.
Qed.

(** What the class table says about a port class and its imp class: the
    class is concrete, its constructor is its own, the imp class has
    operations, and none of them is an attribute a port carries before
    binding or a function of the port's hierarchy. *)
Lemma port_class_facts c imp_type :
  In (c, imp_type) port_table →
  abstract_methods c = [] ∧
  find_method c "__init__" = Some c ∧
  function_names imp_type ≠ [] ∧
  ∀ op, In op (function_names imp_type) →
        inb op port_attrs = false ∧ find_method c op = None.
Proof.
  intros H. port_cases H.
  all: split; [by vm_compute|]; split; [by vm_compute|];
    split; [by vm_compute|].
  all: intros op Hop; vm_compute in Hop;
    repeat (destruct Hop as [<-|Hop]; [by vm_compute|]); done.
Qed.

Lemma construct_port c imp_type name parent :
  In (c, imp_type) port_table →
  construct c [name; parent]
  = (self <- new_instance c ;;
     uvm_port_base_init self name parent (VClass imp_type) ;;;
     ret (VRef self)).
Proof. intros H. port_cases H; reflexivity. Qed.

(** A port just constructed is unbound. *)
Lemma uvm_port_base_init_unbound h self c imp_type name parent :
  h !! self = Some (Instance c ∅) →
  port_imp_type c = Some imp_type →
  post (uvm_port_base_init self name parent (VClass imp_type)) h
       (λ h' r, match r with
                | Ret _ => unbound h' self c
                | _ => True
                end).
Proof.
  intros Hs Himp. unfold uvm_port_base_init.
  apply post_bind.
  destruct (uvm_component_init_cases h self c ∅ name parent Hs)
    as [[e E]|[fn E]]; (eapply post_eq; [exact E|]); [done|].
  simpl. apply post_bind, post_alloc. intros d Hd. simpl.
  assert (d ≠ self) as Hne.
  { intros ->. rewrite lookup_insert_eq in Hd. done. }
  apply post_bind. eapply post_setattr.
  { rewrite lookup_insert_ne by done. apply lookup_insert_eq. }
  simpl. apply post_bind. eapply post_setattr; [apply lookup_insert_eq|].
  simpl. apply post_bind. unfold uvm_methods_of. apply post_ret. simpl.
  apply post_bind. eapply post_setattr; [apply lookup_insert_eq|].
  simpl. apply post_ret.
  eexists _, imp_type. split; [apply lookup_insert_eq|].
  split; [done|]. split; [by simplify_map_eq|]. split; [by simplify_map_eq|].
  intros a [x Hx].
  repeat (rewrite lookup_insert in Hx; case_decide; [subst; by vm_compute|]).
  by rewrite lookup_empty in Hx.
Qed.

Lemma construct_port_unbound h c name parent h' p :
  In c port_class_names →
  construct c [name; parent] h = (h', Ret (VRef p)) →
  unbound h' p c.
Proof.
  intros Hc E.
  destruct (port_class_imp_type c Hc) as [imp_type Himp].
  pose proof (port_imp_type_In _ _ Himp) as Hin.
  destruct (port_class_facts _ _ Hin) as (Habs & _).
  rewrite (construct_port _ _ _ _ Hin) in E.
  destruct (new_instance_concrete c h Habs) as (l & Hl & En).
  rewrite (bind_Ret _ _ _ _ _ En) in E.
  pose proof (uvm_port_base_init_unbound (<[l := Instance c ∅]> h) l c
                imp_type name parent (lookup_insert_eq _ _ _) Himp) as Hpost.
  unfold post in Hpost. unfold bind in E.
  destruct (uvm_port_base_init l name parent (VClass imp_type) _)
    as [h1 [v|e|]]; simpl in *; [|done..].
  unfold ret in E. by simplify_eq.
Qed.

Lemma unbound_frame h h' p c :
  h' !! p = h !! p → unbound h p c → unbound h' p c.
Proof.
  intros E (attrs & imp_type & Hp & H). exists attrs, imp_type.
  split; [congruence | done].
Qed.

Lemma unbound_no_export_attr h p c m :
  unbound h p c → exec_bind p m h = (h, Raise AttributeError).
Proof.
  intros (attrs & imp_type & Hp & _ & _ & _ & Hkeys).
  unfold exec_bind. apply bind_Raise.
  eapply getattr_missing; [exact Hp | |].
  - destruct (attrs !! "__export") eqn:E; [|done].
    assert (inb "__export" port_attrs = true) as Hc by (apply Hkeys; eauto).
    by vm_compute in Hc.
  - apply find_method_undefined. by vm_compute.
Qed.

(** On an unbound port [connect] keeps the port unbound and ends in an
    exception: the first round of its loop cannot read [__export]. *)
Lemma connect_unbound h p c export :
  unbound h p c →
  post (connect p export) h (λ h' r, unbound h' p c ∧ ∃ e, r = Raise e).
Proof.
  intros U. pose proof U as (attrs & imp_type & Hp & Himp & Hit & Hms & Hkeys).
  unfold connect.
  apply post_bind. eapply post_getattr_own; [exact Hp | exact Hit |]. simpl.
  apply post_bind, post_isinstance; [intros b; simpl | simpl; eauto].
  apply post_bind. eapply post_setattr; [exact Hp|]. simpl.
  set (h1 := <[p := _]> h).
  assert (U1 : unbound h1 p c).
  { eexists _, imp_type. split; [apply lookup_insert_eq|].
    split; [done|]. split; [by simplify_map_eq|]. split; [by simplify_map_eq|].
    intros a [x Hx]. rewrite lookup_insert in Hx.
    case_decide; [subst; by vm_compute | eauto]. }
  clearbody h1. clear Hp.
  apply post_bind, post_getattr; [intros ct; simpl | simpl; eauto].
  apply post_bind, post_getattr; [intros efn; simpl | simpl; eauto].
  apply post_bind, post_setitem; [simpl; eauto|].
  intros l1 key1 items1 -> _ Hl1. simpl.
  set (h2 := <[l1 := _]> h1).
  assert (U2 : unbound h2 p c).
  { eapply unbound_frame; [|exact U1]. subst h2.
    apply lookup_insert_ne. intros ->.
    destruct U1 as (? & ? & Hp1 & _). congruence. }
  clearbody h2.
  apply post_bind, post_getattr; [intros pt; simpl | simpl; eauto].
  apply post_bind, post_getattr; [intros sfn; simpl | simpl; eauto].
  apply post_bind, post_setitem; [simpl; eauto|].
  intros l2 key2 items2 -> _ Hl2. simpl.
  set (h3 := <[l2 := _]> h2).
  assert (U3 : unbound h3 p c).
  { eapply unbound_frame; [|exact U2]. subst h3.
    apply lookup_insert_ne. intros ->.
    destruct U2 as (? & ? & Hp2 & _). congruence. }
  clearbody h3.
  pose proof U3 as (attrs3 & imp3 & Hp3 & Himp3 & _ & Hms3 & _).
  apply post_bind. eapply post_getattr_own; [exact Hp3 | exact Hms3 |]. simpl.
  apply post_bind, post_ret. simpl.
  destruct (port_class_facts _ _ (port_imp_type_In _ _ Himp3)) as (_ & _ & Hne & _).
  destruct (function_names imp3) as [|m rest]; [done|].
  apply post_bind. simpl for_each.
  eapply post_eq.
  { apply bind_Raise. by eapply unbound_no_export_attr. }
  simpl. eauto.
Qed.

Lemma unconnected_unbound h p c : unconnected h p c → unbound h p c.
Proof.
  induction 1 as [h c name parent h' p Hc E | h p c export h' e _ IH E
                 | h h' p c _ IH E].
  - by eapply construct_port_unbound.
  - by destruct (post_run _ _ _ _ _ (connect_unbound h p c export IH) E).
  - by eapply unbound_frame.
Qed.

(** On a port of the module [connect] never completes, whatever it is
    given. *)
Lemma connect_never_completes h p c export :
  unconnected h p c →
  ∃ h' e, connect p export h = (h', Raise e) ∧ unconnected h' p c.
Proof.
  intros U. pose proof (unconnected_unbound _ _ _ U) as Ub.
  pose proof (connect_unbound h p c export Ub) as Hpost.
  unfold post in Hpost. destruct (connect p export h) as [h' r] eqn:E.
  destruct Hpost as (_ & e & Hr). simpl in Hr. subst r.
  exists h', e. split; [done|]. by eapply unconnected_failed.
Qed.

(** ** Calling an operation of a port before it is bound *)

(** C4, as stated, fails: [put(1)] on a port that was just constructed
    raises, but what it raises is not an [UnboundPortError]; the module
    has no such exception. *)
Lemma put_on_fresh_port_is_not_UnboundPortError :
  let r := run (construct "uvm_blocking_put_port" [VStr "p"; VNone]) in
  r.2 = Ret (VRef 1%positive) ∧
  unconnected r.1 1%positive "uvm_blocking_put_port" ∧
  ¬ raises_named "UnboundPortError"
      (invoke (VRef 1%positive) "put" [VInt 1] r.1).
Proof.
  split; [vm_compute; reflexivity|]. split.
  - eapply (unconnected_new ∅ _ (VStr "p") VNone).
    + by left.
    + vm_compute; reflexivity.
  - intros (e & He & Hn). vm_compute in He.
    injection He as <-. by vm_compute in Hn.
Qed.

(** C4, amended.  On every port of the module on which [connect] has not
    completed (just constructed, or left by a [connect] that raised),
    calling any operation of its imp class raises [AttributeError] and
    changes nothing: the port has no attribute of that name until
    [connect] binds one. *)
Theorem unconnected_port_raises_AttributeError h p c imp_type op args :
  unconnected h p c →
  port_imp_type c = Some imp_type →
  In op (function_names imp_type) →
  invoke (VRef p) op args h = (h, Raise AttributeError).
Proof.
  intros U Himp Hop. apply unconnected_unbound in U.
  destruct U as (attrs & imp' & Hp & Himp' & _ & _ & Hkeys).
  destruct (port_class_facts _ _ (port_imp_type_In _ _ Himp)) as (_ & _ & _ & Hops).
  destruct (Hops op Hop) as [Hnot Hfind].
  unfold invoke. apply bind_Raise.
  eapply getattr_missing; [exact Hp | | exact Hfind].
  destruct (attrs !! op) eqn:E; [|done].
  assert (inb op port_attrs = true) by (apply Hkeys; eauto). congruence.
Qed.

(** The amended C4 at a [uvm_put_port] that was just constructed and its
    operation [try_put]. *)
Lemma unconnected_port_raises_AttributeError_witness :
  let h := (run (construct "uvm_put_port" [VStr "p"; VNone])).1 in
  unconnected h 1%positive "uvm_put_port" ∧
  port_imp_type "uvm_put_port" = Some "uvm_put_imp" ∧
  In "try_put" (function_names "uvm_put_imp") ∧
  invoke (VRef 1%positive) "try_put" [VInt 5] h = (h, Raise AttributeError).
Proof.
  intros h.
  assert (U : unconnected h 1%positive "uvm_put_port").
  { eapply (unconnected_new ∅ _ (VStr "p") VNone).
    - right; right; by left.
    - vm_compute; reflexivity. }
  assert (I : In "try_put" (function_names "uvm_put_imp")).
  { vm_compute. right; right; by left. }
  split; [exact U|]. split; [reflexivity|]. split; [exact I|].
  exact (unconnected_port_raises_AttributeError h 1%positive "uvm_put_port"
           "uvm_put_imp" "try_put" [VInt 5] U eq_refl I).
Defined.

(** ** The binding protocol *)









Section recording.
Variables (h : heap) (p e : loc) (pn en : string) (dc dp : loc).
Variables (c : string) (attrs : gmap string value) (k : string).
Variables (ec : string) (eattrs : gmap string value).
Variables (citems pitems : gmap key value).
Hypothesis Hp : h !! p = Some (Instance c attrs).
Hypothesis Hit : attrs !! "_imp_type" = Some (VClass k).
Hypothesis Hct : attrs !! "connected_to" = Some (VRef dc).
Hypothesis Hfn : attrs !! "full_name" = Some (VStr pn).
Hypothesis Hms : attrs !! "uvm_methods" = Some (VNames (function_names k)).
Hypothesis He : h !! e = Some (Instance ec eattrs).
Hypothesis Hefn : eattrs !! "full_name" = Some (VStr en).
Hypothesis Hept : eattrs !! "provided_to" = Some (VRef dp).
Hypothesis Hdc : h !! dc = Some (Dict citems).
Hypothesis Hdp : h !! dp = Some (Dict pitems).

Let attrs1 : gmap string value :=
  <[mangle "uvm_port_base" "__export" := VRef e]> attrs.
Let h1 : heap := <[p := Instance c attrs1]> h.
Let h2 : heap := <[dc := Dict (<[KStr en := VRef e]> citems)]> h1.
Let items2 : gmap key value := items_of h2 dp.
Let h3 : heap := <[dp := Dict (<[KStr pn := VRef p]> items2)]> h2.








End recording.




(** ** The export methods on an export that holds a queue

    No code of the module puts an export in such a state: the private name
    has to be stored from outside, under its mangled spelling.  The lemmas
    record what the method bodies do from there on. *)

Section with_queue_in_place.
Variables (h : heap) (self q : loc) (c : string) (attrs : gmap string value).
Variables (maxsize : Z) (items : list value).
Hypothesis Hself : h !! self = Some (Instance c attrs).
Hypothesis Hq : h !! q = Some (QueueObj maxsize items).

Lemma try_put_with_queue item :
  attrs !! mangle "PutExport" "__queue" = Some (VRef q) →
  PutExport_try_put self item h
  = if full maxsize items then (h, Ret (VBool false))
    else (<[q := QueueObj maxsize (items ++ [item])]> h, Ret (VBool true)).
Proof.
  intros Ha. unfold PutExport_try_put, try_except.
  rewrite (bind_Ret _ _ _ _ _ (getattr_own _ _ _ _ _ _ Hself Ha)).
  unfold bind, Queue_put_nowait, with_queue. rewrite Hq.
  by destruct (full maxsize items).
Qed.

Lemma can_put_with_queue :
  attrs !! mangle "PutExport" "__queue" = Some (VRef q) →
  PutExport_can_put self h = (h, Ret (VBool (negb (full maxsize items)))).
Proof.
  intros Ha. unfold PutExport_can_put.
  rewrite (bind_Ret _ _ _ _ _ (getattr_own _ _ _ _ _ _ Hself Ha)).
  unfold bind, Queue_full, with_queue. by rewrite Hq.
Qed.

Lemma put_with_queue item :
  attrs !! mangle "PutExport" "__queue" = Some (VRef q) →
  PutExport_put self item h
  = if full maxsize items then (h, Block)
    else (<[q := QueueObj maxsize (items ++ [item])]> h, Ret VNone).
Proof.
  intros Ha. unfold PutExport_put.
  rewrite (bind_Ret _ _ _ _ _ (getattr_own _ _ _ _ _ _ Hself Ha)).
  unfold bind, Queue_put, with_queue. rewrite Hq.
  by destruct (full maxsize items).
Qed.

Lemma try_get_with_queue :
  attrs !! mangle "GetPeekExport" "__queue" = Some (VRef q) →
  GetPeekExport_try_get self h
  = match items with
    | [] => (h, Ret VNone)
    | x :: rest => (<[q := QueueObj maxsize rest]> h, Ret x)
    end.
Proof.
  intros Ha. unfold GetPeekExport_try_get, try_except.
  rewrite (bind_Ret _ _ _ _ _ (getattr_own _ _ _ _ _ _ Hself Ha)).
  unfold Queue_get_nowait, with_queue. rewrite Hq.
  by destruct items.
Qed.

Lemma get_with_queue :
  attrs !! mangle "GetPeekExport" "__queue" = Some (VRef q) →
  GetPeekExport_get self h
  = match items with
    | [] => (h, Block)
    | x :: rest => (<[q := QueueObj maxsize rest]> h, Ret x)
    end.
Proof.
  intros Ha. unfold GetPeekExport_get.
  rewrite (bind_Ret _ _ _ _ _ (getattr_own _ _ _ _ _ _ Hself Ha)).
  unfold Queue_get, with_queue. rewrite Hq.
  by destruct items.
Qed.

(** On an empty queue [peek] does not wait: [wait()] is called without the
    lock and raises. *)
Lemma peek_with_queue :
  attrs !! mangle "GetPeekExport" "__queue" = Some (VRef q) →
  GetPeekExport_peek self h
  = match items with
    | [] => (h, Raise RuntimeError)
    | x :: _ => (h, Ret x)
    end.
Proof.
  intros Ha. unfold GetPeekExport_peek.
  rewrite (bind_Ret _ _ _ _ _ (getattr_own _ _ _ _ _ _ Hself Ha)).
  unfold bind at 1. unfold Queue_empty, with_queue at 1. rewrite Hq.
  destruct items as [|x rest]; simpl.
  - unfold bind at 1.
    rewrite (bind_Ret _ _ _ _ _ (getattr_own _ _ _ _ _ _ Hself Ha)).
    unfold bind, Queue_not_empty_wait, with_queue. by rewrite Hq.
  - unfold bind at 1. simpl.
    rewrite (bind_Ret _ _ _ _ _ (getattr_own _ _ _ _ _ _ Hself Ha)).
    unfold Queue_head, with_queue. by rewrite Hq.
Qed.

End with_queue_in_place.

(** With a queue of capacity 1 stored on both exports by hand, the five
    calls of the capacity-1 scenario give true, false, false, 5, true. *)
Lemma capacity_one_calls_on_shared_queue :
  (capacity_one_calls 1%positive 2%positive shared_queue_state).2
  = Ret [VBool true; VBool false; VBool false; VInt 5; VBool true].
Proof. vm_compute; reflexivity. Qed.

Section first_in_first_out.
Variables (pe ge q : loc) (pc gc : string) (pattrs gattrs : gmap string value).
Variable maxsize : Z.
Hypothesis Hpq : pattrs !! mangle "PutExport" "__queue" = Some (VRef q).
Hypothesis Hgq : gattrs !! mangle "GetPeekExport" "__queue" = Some (VRef q).

Local Abbreviation holds := (holds pe ge q pc gc pattrs gattrs maxsize).

Lemma holds_store h items items' :
  holds h items → holds (<[q := QueueObj maxsize items']> h) items'.
Proof.
  intros (Hp & Hg & Hq). repeat split.
  - rewrite lookup_insert_ne; [done|]. intros ->. congruence.
  - rewrite lookup_insert_ne; [done|]. intros ->. congruence.
  - apply lookup_insert_eq.
Qed.

(** While there is room, [put] appends at the tail. *)
Lemma put_all_appends xs : ∀ h items,
  holds h items →
  (maxsize ≤ 0 ∨ Z.of_nat (length items + length xs) ≤ maxsize) →
  put_all pe xs h = (<[q := QueueObj maxsize (items ++ xs)]> h, Ret tt).
Proof.
  induction xs as [|x xs IH]; intros h items Hh Hroom.
  - destruct Hh as (_ & _ & Hq). simpl.
    rewrite app_nil_r, insert_id; done.
  - pose proof Hh as (Hp & _ & Hq). unfold put_all. simpl for_each.
    assert (full maxsize items = false) as Hfull.
    { unfold full. destruct Hroom as [Hm|Hm].
      - apply andb_false_iff. left. lia.
      - apply andb_false_iff. right. simpl in Hm. lia. }
    pose proof (put_with_queue h pe q pc pattrs maxsize items Hp Hq x Hpq) as E.
    rewrite Hfull in E.
    assert (E1 : (PutExport_put pe x ;;; ret tt) h
                 = (<[q := QueueObj maxsize (items ++ [x])]> h, Ret tt))
      by (by rewrite (bind_Ret _ _ _ _ _ E)).
    rewrite (bind_Ret _ _ _ _ _ E1).
    fold (put_all pe xs).
    rewrite (IH _ (items ++ [x])%list).
    + by rewrite insert_insert_eq, <- app_assoc.
    + by eapply holds_store.
    + destruct Hroom as [Hm|Hm]; [by left | right].
      rewrite length_app. simpl in *. lia.
Qed.

(** [get] hands out the head, one item per call, in the order of the
    queue. *)
Lemma get_n_takes_prefix xs : ∀ h rest,
  holds h (xs ++ rest) →
  get_n ge (length xs) h = (<[q := QueueObj maxsize rest]> h, Ret xs).
Proof.
  induction xs as [|x xs IH]; intros h rest Hh.
  - destruct Hh as (_ & _ & Hq). simpl. by rewrite insert_id.
  - pose proof Hh as (_ & Hg & Hq). simpl get_n.
    pose proof (get_with_queue h ge q gc gattrs maxsize _ Hg Hq Hgq) as E.
    simpl in E. rewrite (bind_Ret _ _ _ _ _ E).
    rewrite (bind_Ret _ _ _ _ _ (IH _ rest (holds_store _ _ _ Hh))).
    by rewrite insert_insert_eq.
Qed.

(** Items put into an empty queue with room for them come out of [get] in
    the order they went in, and the queue is empty again. *)
Lemma first_in_first_out_with_queue xs h :
  holds h [] →
  (maxsize ≤ 0 ∨ Z.of_nat (length xs) ≤ maxsize) →
  (put_all pe xs ;;; get_n ge (length xs)) h = (h, Ret xs).
Proof.
  intros Hh Hroom.
  rewrite (bind_Ret _ _ _ _ _ (put_all_appends xs h [] Hh Hroom)).
  simpl app.
  pose proof (get_n_takes_prefix xs (<[q := QueueObj maxsize xs]> h) []) as E.
  rewrite app_nil_r in E. rewrite E by by eapply holds_store.
  rewrite insert_insert_eq, insert_id; [done|]. by destruct Hh as (_ & _ & ?).
Qed.

End first_in_first_out.

(** ** The capability classes *)

Lemma construct_abstract c :
  abstract_methods c ≠ [] → find_method c "__init__" = None →
  ∀ args h, construct c args h = (h, Raise TypeError).
Proof.
  intros Habs Hinit args h. unfold construct. rewrite Hinit.
  destruct args; [|done].
  unfold bind, new_instance. by destruct (abstract_methods c).
Qed.

(** Every [_imp] class has operations, leaves all of them abstract, and
    cannot be instantiated, with or without arguments, in any state. *)
Theorem imp_classes_are_abstract :
  Forall (λ c, function_names c ≠ [] ∧
               abstract_methods c = function_names c ∧
               ∀ args h, construct c args h = (h, Raise TypeError))
         imp_class_names.
Proof.
  unfold imp_class_names.
  repeat (constructor;
          [split; [by vm_compute|]; split; [vm_compute; reflexivity|];
           apply construct_abstract; by vm_compute|]).
  constructor.
Qed.

Lemma same_names_spec l1 l2 :
  same_names l1 l2 = true → ∀ x, In x l1 ↔ In x l2.
Proof.
  unfold same_names. intros H x. apply andb_true_iff in H as [H1 H2].
  rewrite forallb_forall in H1, H2. split; intros Hx.
  - apply inb_In. by apply H1.
  - apply inb_In. by apply H2.
Qed.

(** The union of the bases' operations is the whole of a class's
    operations once its own statement defines none. *)
Lemma function_names_of_bases c def :
  same_names (function_names c) (own_and_inherited def) = true →
  functions def = [] →
  ∀ op, In op (function_names c) ↔
        ∃ b, In b (bases def) ∧ In op (function_names b).
Proof.
  intros H Hf op. rewrite (same_names_spec _ _ H op).
  unfold own_and_inherited. rewrite Hf. simpl. by rewrite in_flat_map.
Qed.

(** Each of the thirteen composed capability classes is declared in the
    module with at least two bases and defines no operation of its own,
    and the operations it requires are exactly those of its bases: the
    composition adds nothing and drops nothing.  So [uvm_put_imp] requires
    [put], [try_put] and [can_put], [uvm_get_peek_imp] the six get and
    peek operations, and [uvm_transport_imp] both transports. *)
Theorem capability_sets_compose :
  Forall (λ c, ∃ def,
            class_def_of c = Some def ∧
            functions def = [] ∧
            (2 ≤ length (bases def))%nat ∧
            ∀ op, In op (function_names c) ↔
                  ∃ b, In b (bases def) ∧ In op (function_names b))
         composed_imp_class_names ∧
  function_names "uvm_put_imp" = ["can_put"; "put"; "try_put"] ∧
  function_names "uvm_get_peek_imp"
    = ["can_get"; "can_peek"; "get"; "peek"; "try_get"; "try_peek"] ∧
  function_names "uvm_transport_imp" = ["nb_transport"; "transport"].
Proof.
  split; [|repeat split; vm_compute; reflexivity].
  unfold composed_imp_class_names.
  repeat (apply Forall_cons; split;
    [eexists; split; [vm_compute; reflexivity|];
     split; [reflexivity|]; split; [simpl; lia|];
     apply function_names_of_bases; [vm_compute; reflexivity | reflexivity]|]).
  apply Forall_nil. done.
Qed.

(** The slave classes repeat the bases of the master classes: each slave
    capability class has the operations of the master class of the same
    kind, nine of them for the combined ones. *)
Theorem master_and_slave_require_the_same :
  function_names "uvm_blocking_slave_imp" = function_names "uvm_blocking_master_imp" ∧
  function_names "uvm_nonblocking_slave_imp"
    = function_names "uvm_nonblocking_master_imp" ∧
  function_names "uvm_slave_imp" = function_names "uvm_master_imp" ∧
  function_names "uvm_master_imp"
    = ["can_get"; "can_peek"; "can_put"; "get"; "peek"; "put";
       "try_get"; "try_peek"; "try_put"] ∧
  issubclass "uvm_slave_imp" "uvm_master_imp" = false ∧
  issubclass "uvm_master_imp" "uvm_slave_imp" = false.
Proof. repeat split; vm_compute; reflexivity. Qed.

(** ** Ports as their constructors leave them *)

Lemma uvm_port_base_init_fresh h self c imp_type name parent :
  h !! self = None →
  post (uvm_port_base_init self name parent (VClass imp_type))
       (<[self := Instance c ∅]> h)
       (λ h' r, match r with
                | Ret _ => fresh_port h h' self c imp_type
                | Raise _ => parent ≠ VNone
                | Block => False
                end).
Proof.
  intros Hnone. unfold uvm_port_base_init.
  set (h0 := <[self := Instance c ∅]> h).
  assert (Hs : h0 !! self = Some (Instance c ∅)) by apply lookup_insert_eq.
  apply post_bind.
  destruct (uvm_component_init_cases h0 self c ∅ name parent Hs)
    as [[e E]|[fn E]]; (eapply post_eq; [exact E|]).
  { simpl. intros ->.
    rewrite (uvm_component_init_no_parent _ _ _ _ _ Hs) in E. congruence. }
  simpl. apply post_bind, post_alloc. intros d Hd. simpl.
  assert (d ≠ self) as Hne.
  { intros ->. rewrite lookup_insert_eq in Hd. done. }
  assert (h !! d = None) as Hdnone.
  { subst h0. by rewrite !lookup_insert_ne in Hd. }
  apply post_bind. eapply post_setattr.
  { rewrite lookup_insert_ne by done. apply lookup_insert_eq. }
  simpl. apply post_bind. eapply post_setattr; [apply lookup_insert_eq|].
  simpl. apply post_bind. unfold uvm_methods_of. apply post_ret. simpl.
  apply post_bind. eapply post_setattr; [apply lookup_insert_eq|].
  simpl. apply post_ret.
  eexists d, _. split; [done|]. split; [done|]. split; [done|].
  split; [apply lookup_insert_eq|].
  split. { rewrite !lookup_insert_ne by done. apply lookup_insert_eq. }
  split; [by simplify_map_eq|]. split; [by simplify_map_eq|].
  split; [by simplify_map_eq|].
  intros l Hl1 Hl2. subst h0. by rewrite !lookup_insert_ne.
Qed.

(** Each of the thirteen port classes: the constructor returns when the
    port has no parent, and whenever it returns the port is new, owns a new
    empty [connected_to] dict that nothing else refers to yet, records its
    imp class and lists exactly that class's operations in [uvm_methods];
    every object that existed before is as it was. *)
Theorem port_constructor_state c imp_type name h :
  In (c, imp_type) port_table →
  (∃ h' p, construct c [name; VNone] h = (h', Ret (VRef p))) ∧
  (∀ parent h' p,
     construct c [name; parent] h = (h', Ret (VRef p)) →
     fresh_port h h' p c imp_type).
Proof.
  intros Hin.
  destruct (port_class_facts _ _ Hin) as (Habs & _).
  destruct (new_instance_concrete c h Habs) as (l & Hl & En).
  assert (Hrun : ∀ parent,
            construct c [name; parent] h
            = (uvm_port_base_init l name parent (VClass imp_type) ;;;
               ret (VRef l)) (<[l := Instance c ∅]> h)).
  { intros parent. rewrite (construct_port _ _ _ _ Hin).
    by rewrite (bind_Ret _ _ _ _ _ En). }
  split.
  - rewrite Hrun.
    pose proof (uvm_port_base_init_fresh h l c imp_type name VNone Hl) as P.
    unfold post in P. unfold bind.
    destruct (uvm_port_base_init l name VNone (VClass imp_type) _)
      as [h1 [v|e|]]; simpl in P; [by eexists _, _ | done | done].
  - intros parent h' p E. rewrite Hrun in E.
    pose proof (uvm_port_base_init_fresh h l c imp_type name parent Hl) as P.
    unfold post in P. unfold bind in E.
    destruct (uvm_port_base_init l name parent (VClass imp_type) _)
      as [h1 [v|e|]]; simpl in P; [|done..].
    unfold ret in E. by simplify_eq.
Qed.

(** At [uvm_get_port("p", None)] in the empty store. *)
Lemma port_constructor_state_witness :
  let h' := (run (construct "uvm_get_port" [VStr "p"; VNone])).1 in
  In ("uvm_get_port", "uvm_get_imp") port_table ∧
  construct "uvm_get_port" [VStr "p"; VNone] ∅ = (h', Ret (VRef 1%positive)) ∧
  fresh_port ∅ h' 1%positive "uvm_get_port" "uvm_get_imp".
Proof.
  intros h'.
  assert (I : In ("uvm_get_port", "uvm_get_imp") port_table).
  { unfold port_table. do 5 right. by left. }
  assert (E : construct "uvm_get_port" [VStr "p"; VNone] ∅
              = (h', Ret (VRef 1%positive))) by (vm_compute; reflexivity).
  split; [exact I|]. split; [exact E|].
  exact (proj2 (port_constructor_state "uvm_get_port" "uvm_get_imp" (VStr "p") ∅ I)
           VNone h' 1%positive E).
Defined.

(** At a [uvm_put_port] that was just constructed and the argument
    [None]. *)
Lemma connect_never_completes_witness :
  let h := (run (construct "uvm_put_port" [VStr "p"; VNone])).1 in
  unconnected h 1%positive "uvm_put_port" ∧
  ∃ h' e, connect 1%positive VNone h = (h', Raise e) ∧
          unconnected h' 1%positive "uvm_put_port".
Proof.
  intros h.
  assert (U : unconnected h 1%positive "uvm_put_port").
  { eapply (unconnected_new ∅ _ (VStr "p") VNone).
    - right; right; by left.
    - vm_compute; reflexivity. }
  split; [exact U|].
  exact (connect_never_completes h 1%positive "uvm_put_port" VNone U).
Defined.

(** ** [connect] on providers that lack what it reads *)

Lemma getattr_frame v a p o h :
  v ≠ VRef p →
  getattr_ v a (<[p := o]> h) = (<[p := o]> h, (getattr_ v a h).2).
Proof.
  intros Hv. unfold getattr_. destruct v; try done.
  - by destruct (find_method c a).
  - rewrite lookup_insert_ne by congruence.
    destruct (h !! l) as [[c attrs| |]|]; try done.
    destruct (attrs !! a); [done|]. by destruct (find_method c a).
Qed.

(** Given anything without a [full_name] (a [PutExport] as the module
    creates it, [None], a dict), [connect] on a port of the module raises
    [AttributeError] before it writes either map; the one trace it leaves
    is the rejected object under the port's private [__export]. *)
Theorem connect_without_full_name h p c export :
  unconnected h p c →
  export ≠ VRef p →
  getattr_ export "full_name" h = (h, Raise AttributeError) →
  ∃ attrs,
    h !! p = Some (Instance c attrs) ∧
    connect p export h
    = (<[p := Instance c (<[mangle "uvm_port_base" "__export" := export]> attrs)]> h,
       Raise AttributeError).
Proof.
  intros U Hne Hfn. apply unconnected_unbound in U.
  destruct U as (attrs & imp_type & Hp & _ & Hit & _ & _).
  exists attrs. split; [done|]. unfold connect.
  rewrite (bind_Ret _ _ _ _ _ (getattr_own _ _ _ _ _ _ Hp Hit)).
  rewrite (bind_Ret _ _ h h (issubclass (class_of h export) imp_type))
    by reflexivity.
  rewrite (bind_Ret _ _ _ _ _ (setattr_instance _ _ _ _ _ export Hp)).
  set (h1 := <[p := _]> h).
  assert (E : getattr_ export "full_name" h1 = (h1, Raise AttributeError)).
  { subst h1. rewrite getattr_frame by done. by rewrite Hfn. }
  destruct (getattr_cases (VRef p) "connected_to" h1) as [[ct Ec]|Ec].
  - rewrite (bind_Ret _ _ _ _ _ Ec). by apply bind_Raise.
  - by apply bind_Raise.
Qed.

(** At the pair the module itself can create: a [uvm_put_port] and a
    [PutExport()]. *)
Lemma connect_without_full_name_witness :
  let h := (run setup_module_pair).1 in
  unconnected h 1%positive "uvm_put_port" ∧
  VRef 3%positive ≠ VRef 1%positive ∧
  getattr_ (VRef 3%positive) "full_name" h = (h, Raise AttributeError) ∧
  ∃ attrs,
    h !! 1%positive = Some (Instance "uvm_put_port" attrs) ∧
    connect 1%positive (VRef 3%positive) h
    = (<[1%positive := Instance "uvm_put_port"
           (<[mangle "uvm_port_base" "__export" := VRef 3%positive]> attrs)]> h,
       Raise AttributeError).
Proof.
  intros h.
  assert (U : unconnected h 1%positive "uvm_put_port").
  { eapply unconnected_frame.
    - eapply (unconnected_new ∅ _ (VStr "p") VNone).
      + right; right; by left.
      + vm_compute; reflexivity.
    - vm_compute; reflexivity. }
  assert (N : VRef 3%positive ≠ VRef 1%positive) by done.
  assert (G : getattr_ (VRef 3%positive) "full_name" h = (h, Raise AttributeError))
    by (vm_compute; reflexivity).
  split; [exact U|]. split; [exact N|]. split; [exact G|].
  exact (connect_without_full_name h 1%positive "uvm_put_port" (VRef 3%positive)
           U N G).
Defined.

(** Given a provider that has a name and no [provided_to], [connect]
    enters the provider in the port's [connected_to] and then raises
    [AttributeError]: the binding stays recorded on the port's side only,
    and no other dict changes. *)
Theorem connect_without_provided_to h p e c attrs k dc citems ec eattrs en :
  h !! p = Some (Instance c attrs) →
  attrs !! "_imp_type" = Some (VClass k) →
  attrs !! "connected_to" = Some (VRef dc) →
  h !! dc = Some (Dict citems) →
  h !! e = Some (Instance ec eattrs) →
  eattrs !! "full_name" = Some (VStr en) →
  eattrs !! "provided_to" = None →
  ∃ h',
    connect p (VRef e) h = (h', Raise AttributeError) ∧
    map_entry h' (VRef p) "connected_to" en = Some (VRef e) ∧
    attr h' e "provided_to" = None ∧
    ∀ d, d ≠ dc → items_of h' d = items_of h d.
Proof.
  intros Hp Hit Hct Hdc He Hefn Hept.
  assert (dc ≠ p) as Hcp by (intros ->; congruence).
  assert (dc ≠ e) as Hce by (intros ->; congruence).
  unfold connect.
  change (mangle "uvm_port_base" "__export") with "_uvm_port_base__export".
  rewrite (bind_Ret _ _ _ _ _ (getattr_own _ _ _ _ _ _ Hp Hit)).
  rewrite (bind_Ret _ _ h h (issubclass (class_of h (VRef e)) k)) by reflexivity.
  rewrite (bind_Ret _ _ _ _ _
             (setattr_instance _ _ _ _ "_uvm_port_base__export" (VRef e) Hp)).
  set (attrs1 := <["_uvm_port_base__export" := VRef e]> attrs).
  set (h1 := <[p := Instance c attrs1]> h).
  assert (Hp1 : h1 !! p = Some (Instance c attrs1)) by apply lookup_insert_eq.
  assert (Hct1 : attrs1 !! "connected_to" = Some (VRef dc))
    by (subst attrs1; by rewrite lookup_insert_ne).
  assert (He1 : ∃ ec1 ea1, h1 !! e = Some (Instance ec1 ea1) ∧
                  ea1 !! "full_name" = Some (VStr en) ∧
                  ea1 !! "provided_to" = None).
  { destruct (decide (e = p)) as [->|Hne].
    - assert (ec = c ∧ eattrs = attrs) as [-> ->]
        by (rewrite Hp in He; by simplify_eq).
      exists c, attrs1.
      split; [done|]. subst attrs1. by rewrite !lookup_insert_ne.
    - exists ec, eattrs. subst h1. by rewrite lookup_insert_ne. }
  destruct He1 as (ec1 & ea1 & He1 & Hefn1 & Hept1).
  rewrite (bind_Ret _ _ _ _ _ (getattr_own _ _ _ _ _ _ Hp1 Hct1)).
  rewrite (bind_Ret _ _ _ _ _ (getattr_own _ _ _ _ _ _ He1 Hefn1)).
  assert (Hdc1 : h1 !! dc = Some (Dict citems))
    by (subst h1; by rewrite lookup_insert_ne).
  assert (Es1 : setitem (VRef dc) (VStr en) (VRef e) h1
                = (<[dc := Dict (<[KStr en := VRef e]> citems)]> h1, Ret tt))
    by (unfold setitem; by rewrite Hdc1).
  rewrite (bind_Ret _ _ _ _ _ Es1).
  set (h2 := <[dc := Dict (<[KStr en := VRef e]> citems)]> h1).
  assert (Hp2 : h2 !! p = Some (Instance c attrs1))
    by (subst h2; by rewrite lookup_insert_ne).
  assert (He2 : h2 !! e = Some (Instance ec1 ea1))
    by (subst h2; by rewrite lookup_insert_ne).
  exists h2. split; [|split; [|split]].
  - apply bind_Raise. eapply getattr_missing; [exact He2 | exact Hept1 |].
    apply find_method_undefined. by vm_compute.
  - unfold map_entry, attr, attrs_of. rewrite Hp2, Hct1.
    unfold dict_get, items_of. subst h2. rewrite lookup_insert_eq.
    apply lookup_insert_eq.
  - unfold attr, attrs_of. by rewrite He2.
  - intros d Hd. unfold items_of. subst h2. rewrite lookup_insert_ne by done.
    subst h1. destruct (decide (d = p)) as [->|Hdp].
    + by rewrite lookup_insert_eq, Hp.
    + by rewrite lookup_insert_ne.
Qed.

(** At a [uvm_put_port] and a [PutExport] that was given a name only. *)
Lemma connect_without_provided_to_witness :
  let h := (run setup_named_provider).1 in
  ∃ attrs eattrs,
    h !! 1%positive = Some (Instance "uvm_put_port" attrs) ∧
    attrs !! "_imp_type" = Some (VClass "uvm_put_imp") ∧
    attrs !! "connected_to" = Some (VRef 2%positive) ∧
    h !! 2%positive = Some (Dict ∅) ∧
    h !! 3%positive = Some (Instance "PutExport" eattrs) ∧
    eattrs !! "full_name" = Some (VStr "prov") ∧
    eattrs !! "provided_to" = None ∧
    ∃ h',
      connect 1%positive (VRef 3%positive) h = (h', Raise AttributeError) ∧
      map_entry h' (VRef 1%positive) "connected_to" "prov"
        = Some (VRef 3%positive) ∧
      attr h' 3%positive "provided_to" = None ∧
      ∀ d, d ≠ 2%positive → items_of h' d = items_of h d.
Proof.
  intros h.
  assert (H1 : h !! 1%positive = Some (Instance "uvm_put_port" (attrs_of h 1%positive)))
    by (vm_compute; reflexivity).
  assert (H3 : h !! 3%positive = Some (Instance "PutExport" (attrs_of h 3%positive)))
    by (vm_compute; reflexivity).
  assert (A1 : attrs_of h 1%positive !! "_imp_type" = Some (VClass "uvm_put_imp"))
    by (vm_compute; reflexivity).
  assert (A2 : attrs_of h 1%positive !! "connected_to" = Some (VRef 2%positive))
    by (vm_compute; reflexivity).
  assert (H2 : h !! 2%positive = Some (Dict ∅)) by (vm_compute; reflexivity).
  assert (A3 : attrs_of h 3%positive !! "full_name" = Some (VStr "prov"))
    by (vm_compute; reflexivity).
  assert (A4 : attrs_of h 3%positive !! "provided_to" = None)
    by (vm_compute; reflexivity).
  exists (attrs_of h 1%positive), (attrs_of h 3%positive).
  repeat (split; [assumption|]).
  exact (connect_without_provided_to h 1%positive 3%positive _ _ _ _ _ _ _ _
           H1 A1 A2 H2 H3 A3 A4).
Defined.

(** ** Two exports on one queue

    [pe] reads its queue under the private name of [PutExport], [ge] under
    the one of [GetPeekExport], and both names hold the same queue [q].
    The module never brings two exports into this state; whoever stores the
    two names gets the behaviour below. *)

Section channel.
Variables (pe ge q : loc) (pc gc : string) (pattrs gattrs : gmap string value).
Variable maxsize : Z.
Hypothesis Hpq : pattrs !! mangle "PutExport" "__queue" = Some (VRef q).
Hypothesis Hgq : gattrs !! mangle "GetPeekExport" "__queue" = Some (VRef q).

Local Abbreviation holds := (holds pe ge q pc gc pattrs gattrs maxsize).

Lemma can_get_with_queue h items :
  holds h items →
  GetPeekExport_can_get ge h
  = (h, Ret (VBool (match items with [] => false | _ => true end))).
Proof.
  intros (_ & Hg & Hq). unfold GetPeekExport_can_get.
  rewrite (bind_Ret _ _ _ _ _ (getattr_own _ _ _ _ _ _ Hg Hgq)).
  unfold bind, Queue_empty, with_queue. rewrite Hq. by destruct items.
Qed.

(** [can_put] says what [try_put] and [put] will do next: with room,
    [try_put] returns true, [put] returns, and either appends the item at
    the tail; on a full queue [can_put] and [try_put] return false, [put]
    stays blocked, and none of them changes anything. *)
Theorem can_put_predicts_put h items item :
  holds h items →
  let b := negb (full maxsize items) in
  let h_put := <[q := QueueObj maxsize (items ++ [item])]> h in
  PutExport_can_put pe h = (h, Ret (VBool b)) ∧
  PutExport_try_put pe item h = (if b then h_put else h, Ret (VBool b)) ∧
  PutExport_put pe item h = if b then (h_put, Ret VNone) else (h, Block).
Proof.
  intros (Hp & _ & Hq) b h_put. subst b h_put.
  rewrite (can_put_with_queue _ _ _ _ _ _ _ Hp Hq Hpq).
  rewrite (try_put_with_queue _ _ _ _ _ _ _ Hp Hq _ Hpq).
  rewrite (put_with_queue _ _ _ _ _ _ _ Hp Hq _ Hpq).
  by destruct (full maxsize items).
Qed.

(** [can_get] says what [get] and [try_get] will do next: on a queue with
    items both remove and return the head; on an empty queue [can_get]
    returns false, [try_get] returns [None], [get] stays blocked, and none
    of them changes anything. *)
Theorem can_get_predicts_get h items :
  holds h items →
  match items with
  | [] =>
      GetPeekExport_can_get ge h = (h, Ret (VBool false)) ∧
      GetPeekExport_try_get ge h = (h, Ret VNone) ∧
      GetPeekExport_get ge h = (h, Block)
  | x :: rest =>
      let h_got := <[q := QueueObj maxsize rest]> h in
      GetPeekExport_can_get ge h = (h, Ret (VBool true)) ∧
      GetPeekExport_try_get ge h = (h_got, Ret x) ∧
      GetPeekExport_get ge h = (h_got, Ret x)
  end.
Proof.
  intros Hh. pose proof Hh as (_ & Hg & Hq).
  rewrite (can_get_with_queue _ _ Hh).
  rewrite (try_get_with_queue _ _ _ _ _ _ _ Hg Hq Hgq).
  rewrite (get_with_queue _ _ _ _ _ _ _ Hg Hq Hgq).
  by destruct items.
Qed.

(** [try_get] returns [None] in two cases it does not tell apart, and only
    in these: the queue is empty and stays as it is, or its head is the
    item [None], which the call takes out of the queue. *)
Theorem try_get_None_is_ambiguous h items h' :
  holds h items →
  GetPeekExport_try_get ge h = (h', Ret VNone) ↔
  (items = [] ∧ h' = h) ∨
  (∃ rest, items = VNone :: rest ∧ h' = <[q := QueueObj maxsize rest]> h).
Proof.
  intros (_ & Hg & Hq).
  rewrite (try_get_with_queue _ _ _ _ _ _ _ Hg Hq Hgq).
  destruct items as [|x rest]; simpl.
  - split.
    + intros [= <-]. by left.
    + intros [[_ ->]|(rest' & ? & _)]; done.
  - split.
    + intros [= <- ->]. right. by exists rest.
    + intros [[? _]|(rest' & ? & ->)]; by simplify_eq.
Qed.

(** [peek] never changes the state and never waits: on a queue with items
    it returns the head, which a following [get] returns again and
    removes; on an empty queue it raises [RuntimeError], because it calls
    [wait()] on the queue's condition without holding its lock. *)
Theorem peek_returns_head_or_raises h items :
  holds h items →
  match items with
  | [] => GetPeekExport_peek ge h = (h, Raise RuntimeError)
  | x :: rest =>
      GetPeekExport_peek ge h = (h, Ret x) ∧
      peek_then_get ge h = (<[q := QueueObj maxsize rest]> h, Ret (x, x))
  end.
Proof.
  intros (_ & Hg & Hq).
  pose proof (peek_with_queue _ _ _ _ _ _ _ Hg Hq Hgq) as Ep.
  destruct items as [|x rest]; [done|].
  split; [done|]. unfold peek_then_get.
  rewrite (bind_Ret _ _ _ _ _ Ep).
  by rewrite (bind_Ret _ _ _ _ _ (get_with_queue _ _ _ _ _ _ _ Hg Hq Hgq)).
Qed.

Lemma holds_keep h items items' :
  holds h items → holds (<[q := QueueObj maxsize items']> h) items'.
Proof.
  intros (Hp & Hg & Hq). repeat split.
  - rewrite lookup_insert_ne; [done|]. intros ->. congruence.
  - rewrite lookup_insert_ne; [done|]. intros ->. congruence.
  - apply lookup_insert_eq.
Qed.

(** One call changes nothing but the content of the queue, by one item at
    most, and appends only where there is room. *)
Lemma do_call_step h items c :
  holds h items →
  ∃ items',
    (do_call pe ge c h).1 = <[q := QueueObj maxsize items']> h ∧
    (items' = items ∨
     (full maxsize items = false ∧ ∃ x, items' = (items ++ [x])%list) ∨
     ∃ x, items = x :: items').
Proof.
  intros Hh. pose proof Hh as (Hp & Hg & Hq).
  assert (Hid : h = <[q := QueueObj maxsize items]> h) by by rewrite insert_id.
  destruct c as [item|item| | | | |]; simpl.
  - rewrite (put_with_queue _ _ _ _ _ _ _ Hp Hq _ Hpq).
    destruct (full maxsize items) eqn:Hf; simpl; eauto 10.
  - rewrite (try_put_with_queue _ _ _ _ _ _ _ Hp Hq _ Hpq).
    destruct (full maxsize items) eqn:Hf; simpl; eauto 10.
  - rewrite (can_put_with_queue _ _ _ _ _ _ _ Hp Hq Hpq). simpl. eauto.
  - rewrite (get_with_queue _ _ _ _ _ _ _ Hg Hq Hgq).
    destruct items; simpl; eauto 10.
  - rewrite (try_get_with_queue _ _ _ _ _ _ _ Hg Hq Hgq).
    destruct items; simpl; eauto 10.
  - rewrite (can_get_with_queue _ _ Hh). simpl. eauto.
  - rewrite (peek_with_queue _ _ _ _ _ _ _ Hg Hq Hgq).
    destruct items; simpl; eauto.
Qed.

(** Whatever calls are made on the two exports, in whatever order and
    whatever they return, only the content of the queue changes, and a
    bounded queue that was within its bound stays within it. *)
Theorem calls_keep_capacity cs : ∀ h items,
  holds h items →
  (0 < maxsize → Z.of_nat (length items) ≤ maxsize) →
  ∃ items',
    after_calls pe ge cs h = <[q := QueueObj maxsize items']> h ∧
    (0 < maxsize → Z.of_nat (length items') ≤ maxsize).
Proof.
  induction cs as [|c cs IH]; intros h items Hh Hb.
  - exists items. split; [|done]. simpl.
    destruct Hh as (_ & _ & Hq). by rewrite insert_id.
  - destruct (do_call_step h items c Hh) as (items1 & E1 & Hstep).
    assert (Hb1 : 0 < maxsize → Z.of_nat (length items1) ≤ maxsize).
    { intros Hm. specialize (Hb Hm).
      destruct Hstep as [->|[(Hf & x & ->)|(x & ->)]]; [done| |].
      - unfold full in Hf. rewrite length_app. simpl.
        apply andb_false_iff in Hf as [Hf|Hf]; lia.
      - simpl in Hb. lia. }
    destruct (IH _ items1 (holds_keep h items items1 Hh) Hb1)
      as (items' & E & Hb').
    exists items'. split; [|done].
    unfold after_calls in *. simpl. rewrite E1, E.
    by rewrite insert_insert_eq.
Qed.

(** A producer that puts a list of items one after the other: if the
    queue is unbounded or has room for all of them it returns with all of
    them appended in order; if not, it fills the queue with as many as fit
    and stays blocked at the next one. *)
Theorem put_all_fills_then_blocks xs : ∀ h items,
  holds h items →
  (0 < maxsize → Z.of_nat (length items) ≤ maxsize) →
  put_all pe xs h
  = if (maxsize <=? 0) || (Z.of_nat (length items + length xs) <=? maxsize)
    then (<[q := QueueObj maxsize (items ++ xs)]> h, Ret tt)
    else (<[q := QueueObj maxsize (items ++ take (room maxsize items) xs)]> h,
          Block).
Proof.
  induction xs as [|x xs IH]; intros h items Hh Hb.
  - pose proof Hh as (_ & _ & Hq). simpl.
    rewrite take_nil, app_nil_r, insert_id by done.
    rewrite Nat.add_0_r.
    destruct (maxsize <=? 0) eqn:Hm; [done|].
    apply Z.leb_gt in Hm. specialize (Hb Hm).
    by apply Z.leb_le in Hb as ->.
  - pose proof Hh as (Hp & _ & Hq). unfold put_all. simpl for_each.
    fold (put_all pe xs).
    pose proof (put_with_queue h pe q pc pattrs maxsize items Hp Hq x Hpq) as E.
    destruct (full maxsize items) eqn:Hf.
    + (* no room for [x] *)
      unfold full in Hf. apply andb_true_iff in Hf as [Hf1 Hf2].
      apply Z.ltb_lt in Hf1. apply Z.leb_le in Hf2. specialize (Hb Hf1).
      assert (E1 : (PutExport_put pe x ;;; ret tt) h = (h, Block))
        by (by rewrite (bind_Block _ _ _ _ E)).
      rewrite (bind_Block _ _ _ _ E1).
      replace (maxsize <=? 0) with false by (symmetry; apply Z.leb_gt; lia).
      replace (Z.of_nat (length items + length (x :: xs)) <=? maxsize)
        with false by (symmetry; apply Z.leb_gt; simpl; lia).
      simpl. unfold room.
      replace (Z.to_nat (maxsize - Z.of_nat (length items))) with O by lia.
      by rewrite take_0, app_nil_r, insert_id.
    + assert (E1 : (PutExport_put pe x ;;; ret tt) h
                   = (<[q := QueueObj maxsize (items ++ [x])]> h, Ret tt))
        by (by rewrite (bind_Ret _ _ _ _ _ E)).
      rewrite (bind_Ret _ _ _ _ _ E1).
      assert (Hb1 : 0 < maxsize → Z.of_nat (length (items ++ [x])) ≤ maxsize).
      { intros Hm. specialize (Hb Hm). unfold full in Hf.
        rewrite length_app. simpl.
        apply andb_false_iff in Hf as [Hf|Hf]; lia. }
      rewrite (IH _ (items ++ [x])%list (holds_keep h items _ Hh) Hb1).
      rewrite !insert_insert_eq, <- !app_assoc. simpl.
      replace (length (items ++ [x]) + length xs)%nat
        with (length items + S (length xs))%nat
        by (rewrite length_app; simpl; lia).
      destruct ((maxsize <=? 0)
                || (Z.of_nat (length items + S (length xs)) <=? maxsize))
        eqn:Hc; [done|].
      apply orb_false_iff in Hc as [Hc1 Hc2].
      apply Z.leb_gt in Hc1. specialize (Hb1 Hc1).
      rewrite length_app in Hb1. simpl in Hb1.
      unfold room. rewrite length_app. simpl.
      replace (Z.to_nat (maxsize - Z.of_nat (length items)))
        with (S (Z.to_nat (maxsize - Z.of_nat (length items + 1)))) by lia.
      done.
Qed.

(** One call moves at most one item: what the queue held before, followed
    by what the call accepted, is what the call delivered followed by what
    the queue holds after. *)
Lemma do_call_moves h items c :
  holds h items →
  ∃ items1,
    (do_call pe ge c h).1 = <[q := QueueObj maxsize items1]> h ∧
    (items ++ accepted_by c (do_call pe ge c h).2)%list
    = (delivered_by ge c h (do_call pe ge c h).2 ++ items1)%list.
Proof.
  intros Hh. pose proof Hh as (Hp & Hg & Hq).
  assert (Hid : h = <[q := QueueObj maxsize items]> h) by by rewrite insert_id.
  destruct c as [item|item| | | | |]; simpl.
  - rewrite (put_with_queue _ _ _ _ _ _ _ Hp Hq _ Hpq).
    destruct (full maxsize items); simpl.
    + exists items. by rewrite app_nil_r.
    + by exists (items ++ [item])%list.
  - rewrite (try_put_with_queue _ _ _ _ _ _ _ Hp Hq _ Hpq).
    destruct (full maxsize items); simpl.
    + exists items. by rewrite app_nil_r.
    + by exists (items ++ [item])%list.
  - rewrite (can_put_with_queue _ _ _ _ _ _ _ Hp Hq Hpq). simpl.
    exists items. by rewrite app_nil_r.
  - rewrite (get_with_queue _ _ _ _ _ _ _ Hg Hq Hgq).
    destruct items as [|x rest]; simpl.
    + by exists [].
    + exists rest. by rewrite app_nil_r.
  - rewrite (try_get_with_queue _ _ _ _ _ _ _ Hg Hq Hgq).
    rewrite (can_get_with_queue _ _ Hh).
    destruct items as [|x rest]; simpl.
    + by exists [].
    + exists rest. by rewrite app_nil_r.
  - rewrite (can_get_with_queue _ _ Hh). simpl.
    exists items. by rewrite app_nil_r.
  - rewrite (peek_with_queue _ _ _ _ _ _ _ Hg Hq Hgq).
    exists items. rewrite app_nil_r. by destruct items.
Qed.

(** C9.  On two exports that share one queue holding [items], after any
    run of calls on them: the items delivered by [get] and [try_get], in
    the order they were delivered, followed by the items the queue still
    holds, are the items the queue held at the start followed by the items
    accepted by [put] and [try_put], in the order they were accepted;
    nothing but the content of the queue changed; and as many [get] calls
    as the queue holds items return these, in order, and leave it empty. *)
Theorem accepted_items_are_delivered_in_order cs : ∀ h items acc del h',
  holds h items →
  history pe ge cs h = (acc, del, h') →
  ∃ rest,
    (items ++ acc)%list = (del ++ rest)%list ∧
    h' = <[q := QueueObj maxsize rest]> h ∧
    get_n ge (length rest) h' = (<[q := QueueObj maxsize []]> h, Ret rest).
Proof.
  induction cs as [|c cs IH]; intros h items acc del h' Hh E.
  - simpl in E. injection E as <- <- <-. exists items.
    pose proof Hh as (_ & _ & Hq).
    assert (Hid : <[q := QueueObj maxsize items]> h = h) by by rewrite insert_id.
    rewrite app_nil_r. split; [done|]. split; [done|].
    assert (Hh' : holds h (items ++ [])) by (by rewrite app_nil_r).
    exact (get_n_takes_prefix pe ge q pc gc pattrs gattrs maxsize Hpq Hgq
             items h [] Hh').
  - simpl in E.
    destruct (do_call_moves h items c Hh) as (items1 & E1 & Hmove).
    destruct (do_call pe ge c h) as [h1 r1]. simpl in E1, Hmove. subst h1.
    destruct (history pe ge cs (<[q := QueueObj maxsize items1]> h))
      as [[acc1 del1] h2] eqn:E2.
    injection E as <- <- <-.
    destruct (IH _ items1 acc1 del1 h2 (holds_keep h items items1 Hh) E2)
      as (rest & Hord & -> & Hget).
    exists rest. rewrite !insert_insert_eq in *.
    split; [|done].
    by rewrite app_assoc, Hmove, <- app_assoc, Hord, app_assoc.
Qed.

(** C10.  On a get export whose queue holds [x] at its head, [peek()]
    returns [x] and leaves the state as it was, and [peek()] followed by
    [peek()] returns [x] both times and leaves the state as it was: the
    queue holds the same items after as before. *)
Theorem peek_twice_returns_same_head h x rest :
  holds h (x :: rest) →
  GetPeekExport_peek ge h = (h, Ret x) ∧
  peek_twice ge h = (h, Ret (x, x)) ∧
  (peek_twice ge h).1 !! q = Some (QueueObj maxsize (x :: rest)).
Proof.
  intros (_ & Hg & Hq).
  pose proof (peek_with_queue _ _ _ _ _ _ _ Hg Hq Hgq) as Ep. simpl in Ep.
  assert (E2 : peek_twice ge h = (h, Ret (x, x))).
  { unfold peek_twice. rewrite (bind_Ret _ _ _ _ _ Ep).
    by rewrite (bind_Ret _ _ _ _ _ Ep). }
  split; [done|]. split; [done|]. by rewrite E2.
Qed.

End channel.

(** *** The same at concrete states *)

Lemma queue_state_holds maxsize items :
  holds 1%positive 2%positive 3%positive "PutExport" "GetPeekExport"
        put_export_attrs get_export_attrs maxsize
        (queue_state maxsize items) items.
Proof. repeat split. Qed.

Lemma put_export_attrs_queue :
  put_export_attrs !! mangle "PutExport" "__queue" = Some (VRef 3%positive).
Proof. vm_compute; reflexivity. Qed.

Lemma get_export_attrs_queue :
  get_export_attrs !! mangle "GetPeekExport" "__queue" = Some (VRef 3%positive).
Proof. vm_compute; reflexivity. Qed.

(** On a full queue of capacity 1. *)
Lemma can_put_predicts_put_witness :
  let h := queue_state 1 [VInt 5] in
  put_export_attrs !! mangle "PutExport" "__queue" = Some (VRef 3%positive) ∧
  holds 1%positive 2%positive 3%positive "PutExport" "GetPeekExport"
        put_export_attrs get_export_attrs 1 h [VInt 5] ∧
  PutExport_can_put 1%positive h = (h, Ret (VBool false)) ∧
  PutExport_try_put 1%positive (VInt 6) h = (h, Ret (VBool false)) ∧
  PutExport_put 1%positive (VInt 6) h = (h, Block).
Proof.
  intros h. split; [exact put_export_attrs_queue|].
  split; [apply queue_state_holds|].
  exact (can_put_predicts_put 1%positive 2%positive 3%positive "PutExport"
           "GetPeekExport" put_export_attrs get_export_attrs 1
           put_export_attrs_queue h [VInt 5] (VInt 6)
           (queue_state_holds 1 [VInt 5])).
Defined.

(** On a queue that holds one item. *)
Lemma can_get_predicts_get_witness :
  let h := queue_state 1 [VInt 5] in
  get_export_attrs !! mangle "GetPeekExport" "__queue" = Some (VRef 3%positive) ∧
  holds 1%positive 2%positive 3%positive "PutExport" "GetPeekExport"
        put_export_attrs get_export_attrs 1 h [VInt 5] ∧
  GetPeekExport_can_get 2%positive h = (h, Ret (VBool true)) ∧
  GetPeekExport_try_get 2%positive h
    = (<[3%positive := QueueObj 1 []]> h, Ret (VInt 5)) ∧
  GetPeekExport_get 2%positive h
    = (<[3%positive := QueueObj 1 []]> h, Ret (VInt 5)).
Proof.
  intros h. split; [exact get_export_attrs_queue|].
  split; [apply queue_state_holds|].
  exact (can_get_predicts_get 1%positive 2%positive 3%positive "PutExport"
           "GetPeekExport" put_export_attrs get_export_attrs 1
           get_export_attrs_queue h [VInt 5] (queue_state_holds 1 [VInt 5])).
Defined.

(** On a queue whose head is the item [None]. *)
Lemma try_get_None_is_ambiguous_witness :
  let h := queue_state 0 [VNone; VInt 7] in
  let h' := queue_state 0 [VInt 7] in
  get_export_attrs !! mangle "GetPeekExport" "__queue" = Some (VRef 3%positive) ∧
  holds 1%positive 2%positive 3%positive "PutExport" "GetPeekExport"
        put_export_attrs get_export_attrs 0 h [VNone; VInt 7] ∧
  GetPeekExport_try_get 2%positive h = (h', Ret VNone) ∧
  (GetPeekExport_try_get 2%positive h = (h', Ret VNone) ↔
   ([VNone; VInt 7] = [] ∧ h' = h) ∨
   (∃ rest, [VNone; VInt 7] = VNone :: rest ∧
            h' = <[3%positive := QueueObj 0 rest]> h)).
Proof.
  intros h h'. split; [exact get_export_attrs_queue|].
  split; [apply queue_state_holds|].
  split; [vm_compute; reflexivity|].
  exact (try_get_None_is_ambiguous 1%positive 2%positive 3%positive "PutExport"
           "GetPeekExport" put_export_attrs get_export_attrs 0
           get_export_attrs_queue h [VNone; VInt 7] h'
           (queue_state_holds 0 [VNone; VInt 7])).
Defined.

(** On an empty queue, where [peek] raises. *)
Lemma peek_returns_head_or_raises_witness :
  let h := queue_state 1 [] in
  get_export_attrs !! mangle "GetPeekExport" "__queue" = Some (VRef 3%positive) ∧
  holds 1%positive 2%positive 3%positive "PutExport" "GetPeekExport"
        put_export_attrs get_export_attrs 1 h [] ∧
  GetPeekExport_peek 2%positive h = (h, Raise RuntimeError).
Proof.
  intros h. split; [exact get_export_attrs_queue|].
  split; [apply queue_state_holds|].
  exact (peek_returns_head_or_raises 1%positive 2%positive 3%positive "PutExport"
           "GetPeekExport" put_export_attrs get_export_attrs 1
           get_export_attrs_queue h [] (queue_state_holds 1 [])).
Defined.

(** Three calls on an empty queue of capacity 1. *)
Lemma calls_keep_capacity_witness :
  let h := queue_state 1 [] in
  let cs := [CallTryPut (VInt 5); CallTryPut (VInt 6); CallPeek] in
  put_export_attrs !! mangle "PutExport" "__queue" = Some (VRef 3%positive) ∧
  get_export_attrs !! mangle "GetPeekExport" "__queue" = Some (VRef 3%positive) ∧
  holds 1%positive 2%positive 3%positive "PutExport" "GetPeekExport"
        put_export_attrs get_export_attrs 1 h [] ∧
  (0 < 1 → Z.of_nat (length (@nil value)) ≤ 1) ∧
  ∃ items',
    after_calls 1%positive 2%positive cs h
    = <[3%positive := QueueObj 1 items']> h ∧
    (0 < 1 → Z.of_nat (length items') ≤ 1).
Proof.
  intros h cs.
  assert (B : 0 < 1 → Z.of_nat (length (@nil value)) ≤ 1) by (simpl; lia).
  split; [exact put_export_attrs_queue|].
  split; [exact get_export_attrs_queue|].
  split; [apply queue_state_holds|]. split; [exact B|].
  exact (calls_keep_capacity 1%positive 2%positive 3%positive "PutExport"
           "GetPeekExport" put_export_attrs get_export_attrs 1
           put_export_attrs_queue get_export_attrs_queue cs h []
           (queue_state_holds 1 []) B).
Defined.

(** Three items for a queue of capacity 2: two go in, the third blocks. *)
Lemma put_all_fills_then_blocks_witness :
  let h := queue_state 2 [] in
  put_export_attrs !! mangle "PutExport" "__queue" = Some (VRef 3%positive) ∧
  get_export_attrs !! mangle "GetPeekExport" "__queue" = Some (VRef 3%positive) ∧
  holds 1%positive 2%positive 3%positive "PutExport" "GetPeekExport"
        put_export_attrs get_export_attrs 2 h [] ∧
  (0 < 2 → Z.of_nat (length (@nil value)) ≤ 2) ∧
  put_all 1%positive [VInt 1; VInt 2; VInt 3] h
  = (<[3%positive := QueueObj 2 [VInt 1; VInt 2]]> h, Block).
Proof.
  intros h.
  assert (B : 0 < 2 → Z.of_nat (length (@nil value)) ≤ 2) by (simpl; lia).
  split; [exact put_export_attrs_queue|].
  split; [exact get_export_attrs_queue|].
  split; [apply queue_state_holds|]. split; [exact B|].
  exact (put_all_fills_then_blocks 1%positive 2%positive 3%positive "PutExport"
           "GetPeekExport" put_export_attrs get_export_attrs 2
           put_export_attrs_queue get_export_attrs_queue
           [VInt 1; VInt 2; VInt 3] h [] (queue_state_holds 2 []) B).
Defined.

(** Two items through an unbounded queue. *)
Lemma first_in_first_out_with_queue_witness :
  let h := queue_state 0 [] in
  put_export_attrs !! mangle "PutExport" "__queue" = Some (VRef 3%positive) ∧
  get_export_attrs !! mangle "GetPeekExport" "__queue" = Some (VRef 3%positive) ∧
  holds 1%positive 2%positive 3%positive "PutExport" "GetPeekExport"
        put_export_attrs get_export_attrs 0 h [] ∧
  (0 ≤ 0 ∨ Z.of_nat (length [VInt 1; VInt 2]) ≤ 0) ∧
  (put_all 1%positive [VInt 1; VInt 2] ;;; get_n 2%positive 2) h
  = (h, Ret [VInt 1; VInt 2]).
Proof.
  intros h.
  assert (R : 0 ≤ 0 ∨ Z.of_nat (length [VInt 1; VInt 2]) ≤ 0) by (left; lia).
  split; [exact put_export_attrs_queue|].
  split; [exact get_export_attrs_queue|].
  split; [apply queue_state_holds|]. split; [exact R|].
  exact (first_in_first_out_with_queue 1%positive 2%positive 3%positive
           "PutExport" "GetPeekExport" put_export_attrs get_export_attrs 0
           put_export_attrs_queue get_export_attrs_queue
           [VInt 1; VInt 2] h (queue_state_holds 0 []) R).
Defined.

(** Five calls on an empty unbounded queue: three items go in, two come
    out, the third is still there. *)
Lemma accepted_items_are_delivered_in_order_witness :
  let h := queue_state 0 [] in
  let cs := [CallPut (VInt 1); CallTryPut (VInt 2); CallGet;
             CallPut (VInt 3); CallTryGet] in
  put_export_attrs !! mangle "PutExport" "__queue" = Some (VRef 3%positive) ∧
  get_export_attrs !! mangle "GetPeekExport" "__queue" = Some (VRef 3%positive) ∧
  holds 1%positive 2%positive 3%positive "PutExport" "GetPeekExport"
        put_export_attrs get_export_attrs 0 h [] ∧
  history 1%positive 2%positive cs h
  = ([VInt 1; VInt 2; VInt 3], [VInt 1; VInt 2], queue_state 0 [VInt 3]) ∧
  ∃ rest,
    ([] ++ [VInt 1; VInt 2; VInt 3])%list = ([VInt 1; VInt 2] ++ rest)%list ∧
    queue_state 0 [VInt 3] = <[3%positive := QueueObj 0 rest]> h ∧
    get_n 2%positive (length rest) (queue_state 0 [VInt 3])
    = (<[3%positive := QueueObj 0 []]> h, Ret rest).
Proof.
  intros h cs.
  assert (E : history 1%positive 2%positive cs h
              = ([VInt 1; VInt 2; VInt 3], [VInt 1; VInt 2],
                 queue_state 0 [VInt 3]))
    by (vm_compute; reflexivity).
  split; [exact put_export_attrs_queue|].
  split; [exact get_export_attrs_queue|].
  split; [apply queue_state_holds|]. split; [exact E|].
  exact (accepted_items_are_delivered_in_order 1%positive 2%positive 3%positive
           "PutExport" "GetPeekExport" put_export_attrs get_export_attrs 0
           put_export_attrs_queue get_export_attrs_queue cs h []
           [VInt 1; VInt 2; VInt 3] [VInt 1; VInt 2] (queue_state 0 [VInt 3])
           (queue_state_holds 0 []) E).
Defined.

(** On a queue of capacity 2 that holds two items. *)
Lemma peek_twice_returns_same_head_witness :
  let h := queue_state 2 [VInt 5; VInt 6] in
  get_export_attrs !! mangle "GetPeekExport" "__queue" = Some (VRef 3%positive) ∧
  holds 1%positive 2%positive 3%positive "PutExport" "GetPeekExport"
        put_export_attrs get_export_attrs 2 h [VInt 5; VInt 6] ∧
  GetPeekExport_peek 2%positive h = (h, Ret (VInt 5)) ∧
  peek_twice 2%positive h = (h, Ret (VInt 5, VInt 5)) ∧
  (peek_twice 2%positive h).1 !! 3%positive
  = Some (QueueObj 2 [VInt 5; VInt 6]).
Proof.
  intros h. split; [exact get_export_attrs_queue|].
  split; [apply queue_state_holds|].
  exact (peek_twice_returns_same_head 1%positive 2%positive 3%positive
           "PutExport" "GetPeekExport" put_export_attrs get_export_attrs 2
           get_export_attrs_queue h (VInt 5) [VInt 6]
           (queue_state_holds 2 [VInt 5; VInt 6])).
Defined.

(** ** What the FIFO constructor leaves behind *)

(** [uvm_tlm_fifo_base(name, parent)] never creates a queue: every queue
    in the store after the call was in it before, unchanged.  When there is
    no parent the call ends in [NameError] with one new object, whose
    private [__queue] is [None] and which has no [put_export]. *)
Theorem fifo_constructor_creates_no_queue h name parent :
  let h' := (construct "uvm_tlm_fifo_base" [name; parent] h).1 in
  (∀ l maxsize items,
     h' !! l = Some (QueueObj maxsize items) →
     h !! l = Some (QueueObj maxsize items)) ∧
  (parent = VNone →
   ∃ l, h !! l = None ∧
        construct "uvm_tlm_fifo_base" [name; parent] h = (h', Raise NameError) ∧
        attr h' l (mangle "uvm_tlm_fifo_base" "__queue") = Some VNone ∧
        attr h' l "put_export" = None ∧
        ∀ l', l' ≠ l → h' !! l' = h !! l').
Proof.
  intros h'. subst h'.
  destruct (new_instance_concrete "uvm_tlm_fifo_base" h) as (l & Hl & E);
    [by vm_compute|].
  unfold construct.
  replace (find_method "uvm_tlm_fifo_base" "__init__")
    with (Some "uvm_tlm_fifo_base") by (by vm_compute).
  rewrite (bind_Ret _ _ _ _ _ E). cbv beta iota.
  change (String.eqb "uvm_tlm_fifo_base" "uvm_tlm_fifo_base") with true.
  cbv beta iota.
  set (h0 := <[l := Instance "uvm_tlm_fifo_base" ∅]> h).
  assert (Hs : h0 !! l = Some (Instance "uvm_tlm_fifo_base" ∅))
    by apply lookup_insert_eq.
  unfold uvm_tlm_fifo_base_init, uvm_tlm_fifo_base_init_over.
  destruct (uvm_component_init_cases h0 l _ ∅ name parent Hs) as [[e Ei]|[fn Ei]].
  - rewrite (bind_Raise _ _ _ _ _ (bind_Raise _ _ _ _ _ Ei)). simpl. split.
    + intros l' m items Hq. subst h0.
      destruct (decide (l' = l)) as [->|Hne].
      * by rewrite lookup_insert_eq in Hq.
      * by rewrite lookup_insert_ne in Hq.
    + intros ->. rewrite (uvm_component_init_no_parent _ _ _ _ _ Hs) in Ei.
      congruence.
  - set (h1 := <[l := Instance "uvm_tlm_fifo_base" (<["full_name" := fn]> ∅)]> h0)
      in Ei.
    assert (E2 : (uvm_component_init l name parent ;;;
                  setattr_ l (mangle "uvm_tlm_fifo_base" "__queue") VNone ;;;
                  PutExport <- load_global "PutExport" ;;
                  put_export <- call0 PutExport ;;
                  setattr_ l "put_export" put_export ;;; ret VNone) h0
                 = (<[l := Instance "uvm_tlm_fifo_base"
                            (<[mangle "uvm_tlm_fifo_base" "__queue" := VNone]>
                               (<["full_name" := fn]> ∅))]> h1,
                    Raise NameError)).
    { rewrite (bind_Ret _ _ _ _ _ Ei).
      erewrite bind_Ret; [|apply setattr_instance, lookup_insert_eq].
      apply bind_Raise, load_global_PutExport. }
    rewrite (bind_Raise _ _ _ _ _ E2). simpl. split.
    + intros l' m items Hq. subst h1 h0.
      destruct (decide (l' = l)) as [->|Hne].
      * by rewrite lookup_insert_eq in Hq.
      * by rewrite !lookup_insert_ne in Hq.
    + intros _. exists l. split; [done|]. split; [done|].
      unfold attr, attrs_of. rewrite lookup_insert_eq.
      split; [apply lookup_insert_eq|]. split; [by vm_compute|].
      intros l' Hne. subst h1 h0. by rewrite !lookup_insert_ne.
Qed.
